(** * NYC motor-vehicle collisions wrangling pipeline

    A shallow embedding of
    [Assignments/8- Pandas Assignment/nyc_collisions_wrangling.py].

    The script is a sequence of stages over one pandas [DataFrame].  The
    frame is modelled column-major, the way pandas stores it: a list of
    named [Series], each a dtype tag and its cells.  Every function of the
    script is translated statement by statement; the pandas primitives it
    calls ([dropna], [fillna], [astype], [str.strip], [groupby], ...) are
    given as small executable definitions next to their first use.

    Scope of the model.
    - The pandas primitives behave as in pandas 2: [is_string_dtype] looks
      at the cells of an [object] column, [dt.year] is a float column when
      a date is missing.
    - Text is ASCII: a cell's text is a [string]; characters above 127 are
      taken as uncased and not white space.
    - A float cell is a rational; NaN is the null cell [NA]; infinities are
      not represented.
    - The parsers behind [pd.to_datetime] and [pd.to_numeric], and Python's
      [str()], are parameters of the development.
    - Console output is advisory and is left out, except for the messages of
      the export stage. *)

From Stdlib Require Import List String Ascii ZArith QArith Bool Arith Lia.
From Stdlib Require Import Permutation.
Import ListNotations.
Local Open Scope string_scope.
Local Open Scope list_scope.
Local Open Scope nat_scope.

(* ================================================================== *)
(** * Cells, series and frames *)

(** A [pd.Timestamp], without its seconds. *)
Record Timestamp := mkTimestamp
  { ts_year : Z; ts_month : Z; ts_day : Z; ts_hour : Z; ts_minute : Z }.

(** A [datetime.time]. *)
Record TimeOfDay := mkTime { t_hour : Z; t_minute : Z }.

(** One cell.  [NA] stands for every pandas null: NaN, None, pd.NA, NaT. *)
Inductive value : Type :=
| NA
| VInt (z : Z)
| VFloat (q : Q)
| VStr (s : string)
| VDate (d : Timestamp)
| VTime (t : TimeOfDay).

(** The column dtypes the script meets: what [read_csv] infers ([object],
    [int64], [float64]) and what the stages cast to. *)
Inductive dtype : Type :=
| DObject | DInt64 | DFloat64 | DDatetime64 | DNullableInt64 | DString | DCategory.

Record Series := mkSeries { s_dtype : dtype; s_values : list value }.

Definition DataFrame := list (string * Series).

(** Python exceptions that the stages can raise. *)
Inductive exn : Type :=
| AttributeError (msg : string)
| TypeError (msg : string)
| KeyError (key : string)
| OSError (msg : string)
| ImportError (msg : string)
| OtherException (msg : string).

Inductive result (A : Type) : Type :=
| Ok (a : A)
| Raise (e : exn).
Arguments Ok {A} a.
Arguments Raise {A} e.

Definition bind {A B} (m : result A) (k : A -> result B) : result B :=
  match m with
  | Ok a => k a
  | Raise e => Raise e
  end.

Notation "x <- m ;; k" := (bind m (fun x => k))
  (at level 61, m at next level, right associativity).

Definition is_ok {A} (r : result A) : bool :=
  match r with Ok _ => true | Raise _ => false end.

Definition isna (v : value) : bool :=
  match v with NA => true | _ => false end.

Definition notna (v : value) : bool := negb (isna v).

Definition is_str (v : value) : bool :=
  match v with VStr _ => true | _ => false end.

Definition Timestamp_eq_dec (a b : Timestamp) : {a = b} + {a <> b}.
Proof. decide equality; apply Z.eq_dec. Defined.

Definition TimeOfDay_eq_dec (a b : TimeOfDay) : {a = b} + {a <> b}.
Proof. decide equality; apply Z.eq_dec. Defined.

Definition Q_eq_dec (a b : Q) : {a = b} + {a <> b}.
Proof. decide equality; [apply Pos.eq_dec | apply Z.eq_dec]. Defined.

Definition value_eq_dec (a b : value) : {a = b} + {a <> b}.
Proof.
  decide equality;
    [apply Z.eq_dec | apply Q_eq_dec | apply string_dec
    | apply Timestamp_eq_dec | apply TimeOfDay_eq_dec].
Defined.

Definition value_eqb (a b : value) : bool :=
  if value_eq_dec a b then true else false.

(* ------------------------------------------------------------------ *)
(** ** Column schema (module-level constants of the script) *)

Definition INJURY_COLS : list string :=
  [ "NUMBER OF PERSONS INJURED";
    "NUMBER OF PERSONS KILLED";
    "NUMBER OF PEDESTRIANS INJURED";
    "NUMBER OF PEDESTRIANS KILLED";
    "NUMBER OF CYCLIST INJURED";
    "NUMBER OF CYCLIST KILLED";
    "NUMBER OF MOTORIST INJURED";
    "NUMBER OF MOTORIST KILLED" ].

Definition FACTOR_COLS : list string :=
  [ "CONTRIBUTING FACTOR VEHICLE 1";
    "CONTRIBUTING FACTOR VEHICLE 2";
    "CONTRIBUTING FACTOR VEHICLE 3";
    "CONTRIBUTING FACTOR VEHICLE 4";
    "CONTRIBUTING FACTOR VEHICLE 5" ].

Definition TEXT_COLS : list string :=
  [ "BOROUGH";
    "CONTRIBUTING FACTOR VEHICLE 1";
    "CONTRIBUTING FACTOR VEHICLE 2";
    "CONTRIBUTING FACTOR VEHICLE 3";
    "CONTRIBUTING FACTOR VEHICLE 4";
    "CONTRIBUTING FACTOR VEHICLE 5";
    "ON STREET NAME";
    "CROSS STREET NAME";
    "OFF STREET NAME" ].

Definition DATE_COLS : list string := [ "CRASH_DATE" ].
Definition TIME_COLS : list string := [ "CRASH_TIME" ].
Definition LOCATION_COLS : list string := [ "LATITUDE"; "LONGITUDE" ].
Definition UNIQUE_KEY_COL : string := "UNIQUE KEY".

Definition BOROUGH : string := "BOROUGH".
Definition FACTOR1 : string := "CONTRIBUTING FACTOR VEHICLE 1".
Definition PERSONS_INJURED : string := "NUMBER OF PERSONS INJURED".
Definition CRASH_DATE : string := "CRASH_DATE".
Definition YEAR : string := "YEAR".

(* ------------------------------------------------------------------ *)
(** ** Frame access *)

Definition mem (c : string) (cols : list string) : bool :=
  existsb (String.eqb c) cols.

(** [df.columns] *)
Definition columns (df : DataFrame) : list string := map fst df.

(** [c in df.columns] *)
Definition has_col (df : DataFrame) (c : string) : bool := mem c (columns df).

(** [df[c]] for a column that may be absent. *)
Fixpoint get_col (df : DataFrame) (c : string) : option Series :=
  match df with
  | [] => None
  | (n, s) :: rest => if String.eqb n c then Some s else get_col rest c
  end.

(** [df[c]], raising [KeyError] when the column is absent. *)
Definition getitem (df : DataFrame) (c : string) : result Series :=
  match get_col df c with
  | Some s => Ok s
  | None => Raise (KeyError c)
  end.

Definition col_values (df : DataFrame) (c : string) : list value :=
  match get_col df c with
  | Some s => s_values s
  | None => []
  end.

(** [df.shape[0]] *)
Definition nrows (df : DataFrame) : nat :=
  match df with
  | [] => 0
  | (_, s) :: _ => List.length (s_values s)
  end.

(** [ensure_columns_exist]: "Return only columns that actually exist in the
    DataFrame." *)
Definition ensure_columns_exist (df : DataFrame) (cols : list string)
  : list string :=
  filter (fun c => has_col df c) cols.

(** [df[c] = f(df[c])] for an existing column [c]. *)
Definition update_col (c : string) (f : Series -> Series) (df : DataFrame)
  : DataFrame :=
  map (fun '(n, s) => if String.eqb n c then (n, f s) else (n, s)) df.

(** [for c in cols: df[c] = f(df[c])] *)
Definition update_cols (cols : list string) (f : Series -> Series)
  (df : DataFrame) : DataFrame :=
  fold_left (fun d c => update_col c f d) cols df.

(** [df[c] = s]: overwrite the column in place, or append a new one. *)
Definition assign (df : DataFrame) (c : string) (s : Series) : DataFrame :=
  if has_col df c then update_col c (fun _ => s) df else df ++ [(c, s)].

(** [df[cols]]: the sub-frame of the listed columns. *)
Definition select (df : DataFrame) (cols : list string) : DataFrame :=
  flat_map (fun c => match get_col df c with
                     | Some s => [(c, s)]
                     | None => []
                     end) cols.

Definition map_values (f : value -> value) (s : Series) : Series :=
  mkSeries (s_dtype s) (map f (s_values s)).

(* ================================================================== *)
(** * Stage 2: [handle_missing_values] *)

(** Row [i] has no null in any of the [subset] columns. *)
Definition row_complete (df : DataFrame) (subset : list string) (i : nat)
  : bool :=
  forallb (fun c => notna (nth i (col_values df c) NA)) subset.

Definition take_rows (keep : list nat) (s : Series) : Series :=
  mkSeries (s_dtype s) (map (fun i => nth i (s_values s) NA) keep).

(** [df.dropna(subset=subset)]: keep the rows with no null in [subset]. *)
Definition kept_rows (df : DataFrame) (subset : list string) : list nat :=
  filter (row_complete df subset) (seq 0 (nrows df)).

Definition dropna (df : DataFrame) (subset : list string) : DataFrame :=
  map (fun '(n, s) => (n, take_rows (kept_rows df subset) s)) df.

(** [s.fillna(0)]: nulls become zero, a float zero in a float column. *)
Definition zero_of (d : dtype) : value :=
  match d with
  | DFloat64 => VFloat 0%Q
  | _ => VInt 0%Z
  end.

Definition fillna_zero (s : Series) : Series :=
  map_values (fun v => if isna v then zero_of (s_dtype s) else v) s.

(** [s.fillna(text)]: a numeric column that receives text becomes [object]. *)
Definition fillna_str (text : string) (s : Series) : Series :=
  mkSeries
    (if existsb isna (s_values s)
     then match s_dtype s with DString => DString | _ => DObject end
     else s_dtype s)
    (map (fun v => if isna v then VStr text else v) (s_values s)).

Definition handle_missing_values (df : DataFrame) : DataFrame :=
  (* Drop rows missing critical location info *)
  let loc_cols := ensure_columns_exist df LOCATION_COLS in
  let df := match loc_cols with
            | [] => df
            | _ :: _ => dropna df loc_cols
            end in
  (* Fill injury/death counts with 0 where missing *)
  let injuries := ensure_columns_exist df INJURY_COLS in
  let df := match injuries with
            | [] => df
            | _ :: _ => update_cols injuries fillna_zero df
            end in
  (* Fill contributing factor blanks with 'Unknown' (for VEHICLE 1 at least) *)
  let df := if has_col df FACTOR1
            then update_col FACTOR1 (fillna_str "Unknown") df
            else df in
  df.

(* ================================================================== *)
(** * Text primitives: [str.strip] and [str.title] on ASCII text *)

Definition code (c : ascii) : nat := nat_of_ascii c.

(** [c.isspace()]: tab, line feed, vertical tab, form feed, carriage
    return, the four separators 28..31 and the blank. *)
Definition is_space (c : ascii) : bool :=
  ((9 <=? code c) && (code c <=? 13))
  || ((28 <=? code c) && (code c <=? 32)).

Definition is_upper (c : ascii) : bool := (65 <=? code c) && (code c <=? 90).
Definition is_lower (c : ascii) : bool := (97 <=? code c) && (code c <=? 122).

Definition to_upper (c : ascii) : ascii :=
  if is_lower c then ascii_of_nat (code c - 32) else c.

Definition to_lower (c : ascii) : ascii :=
  if is_upper c then ascii_of_nat (code c + 32) else c.

Fixpoint lstrip (s : string) : string :=
  match s with
  | EmptyString => EmptyString
  | String c s' => if is_space c then lstrip s' else s
  end.

Fixpoint rstrip (s : string) : string :=
  match s with
  | EmptyString => EmptyString
  | String c s' =>
      match rstrip s' with
      | EmptyString => if is_space c then EmptyString else String c EmptyString
      | r => String c r
      end
  end.

(** [s.strip()] *)
Definition strip (s : string) : string := rstrip (lstrip s).

(** The loop of [str.title]: [prev] is "the previous character is cased". *)
Fixpoint title_from (prev : bool) (s : string) : string :=
  match s with
  | EmptyString => EmptyString
  | String c s' =>
      if is_lower c then
        String (if prev then c else to_upper c) (title_from true s')
      else if is_upper c then
        String (if prev then to_lower c else c) (title_from true s')
      else String c (title_from false s')
  end.

(** [s.title()] *)
Definition title (s : string) : string := title_from false s.

(* ------------------------------------------------------------------ *)
(** ** The [.str] accessor and dtype tests *)

Definition is_num (v : value) : bool :=
  match v with VInt _ | VFloat _ => true | _ => false end.
Definition is_date (v : value) : bool :=
  match v with VDate _ => true | _ => false end.
Definition is_time (v : value) : bool :=
  match v with VTime _ => true | _ => false end.

(** [pd.api.types.is_string_dtype(s)]: the [string] dtype, or an [object]
    column all of whose cells are text (a null cell is not text). *)
Definition is_string_dtype (s : Series) : bool :=
  match s_dtype s with
  | DString => true
  | DObject => forallb is_str (s_values s)
  | DCategory =>
      forallb (fun v => isna v || is_str v) (s_values s)
      && existsb is_str (s_values s)
  | _ => false
  end.

(** [s.dtype.name == "category"] *)
Definition is_category (s : Series) : bool :=
  match s_dtype s with DCategory => true | _ => false end.

(** Whether [s.str] is available.  pandas infers the kind of the non-null
    cells and accepts "string", "empty", "mixed" and "mixed-integer". *)
Definition str_accessor_ok (s : Series) : bool :=
  match s_dtype s with
  | DString => true
  | DObject | DCategory =>
      let nn := filter notna (s_values s) in
      match nn with
      | [] => true
      | _ :: _ =>
          negb (forallb is_num nn) && negb (forallb is_date nn)
          && negb (forallb is_time nn)
      end
  | _ => false
  end.

(** A [.str] method applied cell by cell: text is transformed, every other
    cell comes back null. *)
Definition str_apply (f : string -> string) (v : value) : value :=
  match v with
  | VStr x => VStr (f x)
  | _ => NA
  end.

Definition str_method (f : string -> string) (s : Series) : Series :=
  mkSeries (match s_dtype s with DString => DString | _ => DObject end)
           (map (str_apply f) (s_values s)).

(** [s.str.strip()] and [s.str.title()] *)
Definition str_strip (s : Series) : result Series :=
  if str_accessor_ok s then Ok (str_method strip s)
  else Raise (AttributeError "Can only use .str accessor with string values!").

Definition str_title (s : Series) : result Series :=
  if str_accessor_ok s then Ok (str_method title s)
  else Raise (AttributeError "Can only use .str accessor with string values!").

(** [s.replace(old, pd.NA)]: cells equal to the text [old] become null. *)
Definition replace_with_na (old : string) (s : Series) : Series :=
  map_values (fun v => match v with
                       | VStr x => if String.eqb x old then NA else v
                       | _ => v
                       end) s.

(* ------------------------------------------------------------------ *)
(** ** Fallible column updates *)

Fixpoint map_result {A B} (f : A -> result B) (l : list A) : result (list B) :=
  match l with
  | [] => Ok []
  | x :: l' => y <- f x ;; ys <- map_result f l' ;; Ok (y :: ys)
  end.

(** [df[c] = f(df[c])] where [f] may raise. *)
Definition update_col_e (c : string) (f : Series -> result Series)
  (df : DataFrame) : result DataFrame :=
  map_result (fun '(n, s) =>
                if String.eqb n c then s' <- f s ;; Ok (n, s') else Ok (n, s))
             df.

(** [for c in cols: df[c] = f(df[c])] where [f] may raise. *)
Fixpoint update_cols_e (cols : list string) (f : Series -> result Series)
  (df : DataFrame) : result DataFrame :=
  match cols with
  | [] => Ok df
  | c :: cols' => df' <- update_col_e c f df ;; update_cols_e cols' f df'
  end.

(* ================================================================== *)
(** * Stages 3 and 4: [correct_types] and [clean_text] *)

Definition INT64_MIN : Z := (- 2 ^ 63)%Z.
Definition INT64_MAX : Z := (2 ^ 63 - 1)%Z.

Definition in_int64 (z : Z) : bool :=
  ((INT64_MIN <=? z) && (z <=? INT64_MAX))%Z.

(** The float has no fractional part. *)
Definition is_integral (q : Q) : bool :=
  (Qnum q mod Zpos (Qden q) =? 0)%Z.

Definition Q_to_Z (q : Q) : Z := (Qnum q / Zpos (Qden q))%Z.

(** One cell of [s.astype("Int64")]: pandas casts and compares with the
    original, and refuses a cast that changes the value. *)
Definition cast_Int64 (v : value) : result value :=
  match v with
  | NA => Ok NA
  | VInt z =>
      if in_int64 z then Ok (VInt z)
      else Raise (TypeError "cannot safely cast non-equivalent float64 to int64")
  | VFloat q =>
      if is_integral q && in_int64 (Q_to_Z q) then Ok (VInt (Q_to_Z q))
      else Raise (TypeError "cannot safely cast non-equivalent float64 to int64")
  | _ => Raise (TypeError "cannot safely cast non-equivalent object to int64")
  end.

Definition astype_Int64 (s : Series) : result Series :=
  cells <- map_result cast_Int64 (s_values s) ;;
  Ok (mkSeries DNullableInt64 cells).

(** [s.astype("category")] *)
Definition astype_category (s : Series) : Series :=
  mkSeries DCategory (s_values s).

(** [s.dt.time] *)
Definition dt_time (s : Series) : result Series :=
  match s_dtype s with
  | DDatetime64 =>
      Ok (mkSeries DObject
            (map (fun v => match v with
                           | VDate d => VTime (mkTime (ts_hour d) (ts_minute d))
                           | _ => NA
                           end) (s_values s)))
  | _ => Raise (AttributeError "Can only use .dt accessor with datetimelike values")
  end.

(** [s.dt.year]: an integer column, or a float column when some date is
    missing. *)
Definition dt_year (s : Series) : result Series :=
  match s_dtype s with
  | DDatetime64 =>
      let has_nat := existsb isna (s_values s) in
      Ok (mkSeries (if has_nat then DFloat64 else DInt64)
            (map (fun v => match v with
                           | VDate d => if has_nat then VFloat (inject_Z (ts_year d))
                                        else VInt (ts_year d)
                           | _ => NA
                           end) (s_values s)))
  | _ => Raise (AttributeError "Can only use .dt accessor with datetimelike values")
  end.

Section Pandas.

(** [pd.to_datetime] on one non-null cell, with the format left to pandas. *)
Variable parse_datetime : value -> option Timestamp.
(** [pd.to_datetime(format="%H:%M")] on one non-null cell. *)
Variable strptime_HM : value -> option Timestamp.
(** The numeric parser of [pd.to_numeric] on one text cell. *)
Variable parse_number : string -> option Q.
(** Python's [str()] on a cell that is not text. *)
Variable py_str : value -> string.

(** [pd.to_datetime(s, errors="coerce")]: a cell that does not parse
    becomes NaT. *)
Definition to_datetime (parse : value -> option Timestamp) (s : Series)
  : Series :=
  mkSeries DDatetime64
    (map (fun v => match v with
                   | NA => NA
                   | _ => match parse v with
                          | Some d => VDate d
                          | None => NA
                          end
                   end) (s_values s)).

(** [pd.to_numeric(s, errors="coerce")]: a cell that does not parse
    becomes NaN. *)
Definition to_numeric_cell (v : value) : value :=
  match v with
  | VInt z => VInt z
  | VFloat q => VFloat q
  | VStr x => match parse_number x with
              | Some q => VFloat q
              | None => NA
              end
  | _ => NA
  end.

Definition to_numeric (s : Series) : Series :=
  let cells := map to_numeric_cell (s_values s) in
  mkSeries (if forallb (fun v => match v with VInt _ => true | _ => false end)
                 cells
            then DInt64 else DFloat64) cells.

(** [s.astype("string")] *)
Definition astype_string (s : Series) : Series :=
  mkSeries DString
    (map (fun v => match v with
                   | NA => NA
                   | VStr x => VStr x
                   | _ => VStr (py_str v)
                   end) (s_values s)).

Definition correct_types (df : DataFrame) : result DataFrame :=
  (* Parse date/time *)
  let df := update_cols (ensure_columns_exist df DATE_COLS)
              (to_datetime parse_datetime) df in
  df <- update_cols_e (ensure_columns_exist df TIME_COLS)
          (fun s => let parsed := to_datetime strptime_HM s in
                    dt_time parsed) df ;;
  (* Convert injuries to Int64 (nullable integer) *)
  df <- update_cols_e (ensure_columns_exist df INJURY_COLS)
          (fun s => astype_Int64 (to_numeric s)) df ;;
  (* Borough as category *)
  let df := if has_col df BOROUGH
            then update_col BOROUGH astype_category df
            else df in
  Ok df.

Definition clean_text (df : DataFrame) : result DataFrame :=
  df <- update_cols_e (ensure_columns_exist df TEXT_COLS)
          (fun s => if is_string_dtype s || is_category s
                    then str_strip (astype_string s)
                    else Ok s) df ;;
  (* Standardize borough casing *)
  df <- (if has_col df BOROUGH
         then update_col_e BOROUGH str_title df
         else Ok df) ;;
  (* Replace exact "Unspecified" with NaN *)
  let df := update_cols (ensure_columns_exist df FACTOR_COLS)
              (replace_with_na "Unspecified") df in
  Ok df.

End Pandas.

(* ================================================================== *)
(** * Grouping primitives *)

(** The order in which [groupby] lists its keys: numbers by value, text by
    code point, dates by calendar order. *)
Definition kind_rank (v : value) : nat :=
  match v with
  | NA => 0
  | VInt _ | VFloat _ => 1
  | VStr _ => 2
  | VDate _ => 3
  | VTime _ => 4
  end.

Definition stamp_key (d : Timestamp) : list Z :=
  [ts_year d; ts_month d; ts_day d; ts_hour d; ts_minute d].

Fixpoint lex_leb (a b : list Z) : bool :=
  match a, b with
  | [], _ => true
  | _ :: _, [] => false
  | x :: a', y :: b' => (x <? y)%Z || ((x =? y)%Z && lex_leb a' b')
  end.

Definition value_leb (a b : value) : bool :=
  match a, b with
  | VInt x, VInt y => (x <=? y)%Z
  | VInt x, VFloat q => Qle_bool (inject_Z x) q
  | VFloat p, VInt y => Qle_bool p (inject_Z y)
  | VFloat p, VFloat q => Qle_bool p q
  | VStr x, VStr y => String.leb x y
  | VDate d, VDate e => lex_leb (stamp_key d) (stamp_key e)
  | VTime t, VTime u => lex_leb [t_hour t; t_minute t] [t_hour u; t_minute u]
  | _, _ => kind_rank a <=? kind_rank b
  end.

(** Distinct cells, in order of first appearance. *)
Fixpoint unique (l : list value) : list value :=
  match l with
  | [] => []
  | x :: l' => x :: filter (fun y => negb (value_eqb x y)) (unique l')
  end.

Fixpoint insert_key (k : value) (l : list value) : list value :=
  match l with
  | [] => [k]
  | h :: t => if value_leb k h then k :: l else h :: insert_key k t
  end.

Definition sort_keys (l : list value) : list value :=
  fold_right insert_key [] l.

(** The group keys of [groupby(col)]: the distinct non-null cells, sorted. *)
Definition group_keys (keys : list value) : list value :=
  sort_keys (unique (filter notna keys)).

Definition count (v : value) (l : list value) : nat :=
  List.length (filter (value_eqb v) l).

(** [df.groupby(col).size()] for the cells [keys] of [col]: one entry per
    group, the number of rows of the group. *)
Definition groupby_size (keys : list value) : list (value * nat) :=
  map (fun k => (k, count k keys)) (group_keys keys).

(** [s.sort_values(ascending=False)] on a series of counts.  pandas reverses
    the entries, sorts them in ascending order and reverses the outcome;
    the ascending sort is taken as insertion sort, which is what numpy runs
    on short arrays, so entries with equal counts keep their order. *)
Fixpoint insert_count (x : value * nat) (l : list (value * nat))
  : list (value * nat) :=
  match l with
  | [] => [x]
  | y :: l' => if snd x <=? snd y then x :: l else y :: insert_count x l'
  end.

Definition sort_ascending (l : list (value * nat)) : list (value * nat) :=
  fold_right insert_count [] l.

Definition sort_values_desc (l : list (value * nat)) : list (value * nat) :=
  rev (sort_ascending (rev l)).

(** [s.idxmax()]: the label of the first entry that holds the maximum. *)
Definition first_max (l : list (value * nat)) : option (value * nat) :=
  fold_left (fun best x =>
               match best with
               | None => Some x
               | Some b => if snd b <? snd x then Some x else Some b
               end) l None.

Definition idxmax (l : list (value * nat)) : option value :=
  option_map fst (first_max l).

(** [s.value_counts(dropna=False)]: every distinct cell, null included, with
    its number of rows, most frequent first. *)
Definition value_counts (cells : list value) : list (value * nat) :=
  sort_values_desc (map (fun k => (k, count k cells)) (unique cells)).

(** A pivot table: row labels, column labels, and the cells.  A cell is
    [None] where pandas shows NaN. *)
Record Pivot := mkPivot
  { p_index : list value;
    p_columns : list value;
    p_data : list (list (option nat)) }.

Definition row3 : Type := value * (value * value).

(** The rows of the group [(y, b)], as (index, column, value) triples. *)
Definition group_rows (rows : list row3) (y b : value) : list row3 :=
  filter (fun r => value_eqb (fst r) y && value_eqb (fst (snd r)) b) rows.

(** [aggfunc="count"]: the number of non-null values of the group; an empty
    group leaves NaN. *)
Definition agg_count (g : list row3) : option nat :=
  match g with
  | [] => None
  | _ :: _ => Some (List.length (filter (fun r => notna (snd (snd r))) g))
  end.

(** [df.pivot_table(index=, columns=, values=, aggfunc="count")] on the
    cells of the three columns.  Rows with a null label are left out. *)
Definition pivot_table (index columns values : list value) : Pivot :=
  let rows := combine index (combine columns values) in
  let labelled :=
    filter (fun r => notna (fst r) && notna (fst (snd r))) rows in
  let idx := group_keys (map fst labelled) in
  let cols := group_keys (map (fun r => fst (snd r)) labelled) in
  mkPivot idx cols
    (map (fun y => map (fun b => agg_count (group_rows rows y b)) cols) idx).

Fixpoint index_of (v : value) (l : list value) : option nat :=
  match l with
  | [] => None
  | h :: t => if value_eqb h v then Some 0
              else option_map S (index_of v t)
  end.

(** [pivot.loc[y, b]]: [None] when the label is absent or the cell is NaN. *)
Definition pivot_cell (p : Pivot) (y b : value) : option nat :=
  match index_of y (p_index p), index_of b (p_columns p) with
  | Some i, Some j => nth j (nth i (p_data p) []) None
  | _, _ => None
  end.

(* ================================================================== *)
(** * Stage 5: [filter_and_group] *)

(** What the stage writes.  The Pearson matrix is a floating-point
    computation; its artifact is represented by the sub-frame it is
    computed from. *)
Record GroupArtifacts := mkGroupArtifacts
  { manhattan_rows : option nat;
    collisions_by_borough : option (list (value * nat));
    collisions_by_year : option (list (value * nat));
    pivot_year_borough : option Pivot;
    injury_correlation : option DataFrame }.

(** The function returns [None] in Python and updates [df] in place: the
    frame after the call is returned next to the artifacts. *)
Definition filter_and_group (df : DataFrame)
  : result (DataFrame * GroupArtifacts) :=
  (* Filter example: Manhattan subset *)
  let manhattan :=
    if has_col df BOROUGH
    then Some (count (VStr "Manhattan") (col_values df BOROUGH))
    else None in
  (* Year column *)
  df <- (if has_col df CRASH_DATE
         then s <- getitem df CRASH_DATE ;;
              y <- dt_year s ;;
              Ok (assign df YEAR y)
         else Ok df) ;;
  (* Group by borough: total collisions *)
  let borough_counts :=
    if has_col df BOROUGH
    then Some (sort_values_desc (groupby_size (col_values df BOROUGH)))
    else None in
  (* Group by year: trend *)
  let yearly_counts :=
    if has_col df YEAR
    then Some (groupby_size (col_values df YEAR))
    else None in
  (* Pivot: collisions per borough per year *)
  let pivot :=
    if has_col df YEAR && has_col df BOROUGH && has_col df UNIQUE_KEY_COL
    then Some (pivot_table (col_values df YEAR) (col_values df BOROUGH)
                 (col_values df UNIQUE_KEY_COL))
    else None in
  (* Correlation matrix of injury columns *)
  let injuries := ensure_columns_exist df INJURY_COLS in
  let corr := match injuries with
              | [] => None
              | _ :: _ => Some (select df injuries)
              end in
  Ok (df, mkGroupArtifacts manhattan borough_counts yearly_counts pivot corr).

(* ================================================================== *)
(** * Stage 6: [statistical_summaries] *)

(** What the stage writes or prints.  [describe] and [mean] are
    floating-point computations; they are represented by the data they are
    computed from. *)
Record StatArtifacts := mkStatArtifacts
  { injury_describe : option DataFrame;
    avg_injuries : option Series;
    top_contributing_factors_v1 : option (list (value * nat));
    most_crashes : option value;
    collisions_by_borough_full : option (list (value * nat)) }.

(** The function only reads [df]. *)
Definition statistical_summaries (df : DataFrame) : result StatArtifacts :=
  let injuries := ensure_columns_exist df INJURY_COLS in
  inj <- match injuries with
         | [] => Ok (None, None)
         | _ :: _ =>
             let stats := select df injuries in
             s <- getitem df PERSONS_INJURED ;;
             Ok (Some stats, Some s)
         end ;;
  (* Top contributing factors *)
  let top_factors :=
    if has_col df FACTOR1
    then Some (firstn 20 (value_counts (col_values df FACTOR1)))
    else None in
  (* Borough with most crashes *)
  let borough :=
    if has_col df BOROUGH
    then let borough_counts := groupby_size (col_values df BOROUGH) in
         match borough_counts with
         | [] => (None, None)
         | _ :: _ => (idxmax borough_counts, Some borough_counts)
         end
    else (None, None) in
  Ok (mkStatArtifacts (fst inj) (snd inj) top_factors
        (fst borough) (snd borough)).

(* ================================================================== *)
(** * Stage 7: [export_raw_and_clean], and [main] *)

(** A [pathlib.Path] under the output directory: [outdir / name]. *)
Record Path := mkPath { parent : string; name : string }.

Definition joinpath (outdir file : string) : Path := mkPath outdir file.

(** What a run leaves behind: files, and the warning line of a skipped
    Parquet export. *)
Inductive event : Type :=
| CsvWritten (path : Path)
| JsonWritten (path : Path) (df : DataFrame)
| ParquetWritten (path : Path) (df : DataFrame)
| ParquetSkipped (artifact : string) (e : exn)
| GroupReport (a : GroupArtifacts)
| StatReport (a : StatArtifacts).

(** A computation that leaves a trace and may raise.  The trace up to the
    exception is kept. *)
Definition io (A : Type) : Type := list event * result A.

Definition io_ret {A} (a : A) : io A := ([], Ok a).

Definition io_bind {A B} (m : io A) (k : A -> io B) : io B :=
  match m with
  | (l, Ok a) => let (l', r) := k a in (l ++ l', r)
  | (l, Raise e) => (l, Raise e)
  end.

Definition lift {A} (r : result A) : io A := ([], r).

Definition emit (e : event) : io unit := ([e], Ok tt).

Notation "x <-- m ;; k" := (io_bind m (fun x => k))
  (at level 61, m at next level, right associativity).

(** [sys.exit(main())]: [main] returns [None], which exits with status 0;
    an exception that escapes exits with status 1. *)
Definition exit_code {A} (run : io A) : Z :=
  match snd run with
  | Ok _ => 0%Z
  | Raise _ => 1%Z
  end.

Section Run.

Variable parse_datetime : value -> option Timestamp.
Variable strptime_HM : value -> option Timestamp.
Variable parse_number : string -> option Q.
Variable py_str : value -> string.

(** [pd.read_csv(path, low_memory=False)] *)
Variable read_csv : string -> result DataFrame.
(** [df.to_json(path, orient="records", lines=True)] *)
Variable to_json : DataFrame -> Path -> result unit.
(** [df.to_parquet(path)], which needs pyarrow or fastparquet. *)
Variable to_parquet : DataFrame -> Path -> result unit.

(** [load_raw]: read the file; the inspection report is console output. *)
Definition load_raw (csv_path : string) : io DataFrame :=
  lift (read_csv csv_path).

Definition safe_to_parquet (df : DataFrame) (path : Path) : io unit :=
  match to_parquet df path with
  | Ok _ => emit (ParquetWritten path df)
  | Raise e => emit (ParquetSkipped (name path) e)
  end.

Definition write_json (df : DataFrame) (path : Path) : io unit :=
  _ <-- lift (to_json df path) ;;
  emit (JsonWritten path df).

Definition export_raw_and_clean (csv_input : string) (df_clean : DataFrame)
  (outdir : string) : io unit :=
  let raw_out_json := joinpath outdir "collisions_raw.json" in
  let raw_out_parq := joinpath outdir "collisions_raw.parquet" in
  let clean_out_json := joinpath outdir "collisions_clean.json" in
  let clean_out_parq := joinpath outdir "collisions_clean.parquet" in
  (* Raw *)
  df_raw <-- lift (read_csv csv_input) ;;
  _ <-- write_json df_raw raw_out_json ;;
  _ <-- safe_to_parquet df_raw raw_out_parq ;;
  (* Cleaned *)
  _ <-- write_json df_clean clean_out_json ;;
  safe_to_parquet df_clean clean_out_parq.

(** Steps 1 to 6 of [main]; the value is the frame [df] that [main] holds
    when it reaches the export.  [filter_and_group] receives the frame
    itself, so what it adds to the frame is seen by the later steps. *)
Definition wrangle (input_csv outdir : string) : io DataFrame :=
  (* 1) Inspect & load *)
  df <-- load_raw input_csv ;;
  _ <-- emit (CsvWritten (joinpath outdir "sample_head.csv")) ;;
  (* 2) Missing values *)
  let df := handle_missing_values df in
  (* 3) Types *)
  df <-- lift (correct_types parse_datetime strptime_HM parse_number df) ;;
  (* 4) Clean text *)
  df <-- lift (clean_text py_str df) ;;
  (* 5) Filter & group (and save tables) *)
  r <-- lift (filter_and_group df) ;;
  let df := fst r in
  _ <-- emit (GroupReport (snd r)) ;;
  (* 6) Stats *)
  a <-- lift (statistical_summaries df) ;;
  _ <-- emit (StatReport a) ;;
  io_ret df.

Definition main (input_csv outdir : string) : io unit :=
  df <-- wrangle input_csv outdir ;;
  (* 7) Export raw + cleaned *)
  export_raw_and_clean input_csv df outdir.

End Run.

(* ================================================================== *)
(** * Sample data *)

(** The rows of [handle_missing_values]'s input that survive the location
    filter (the first step of the function). *)
Definition located (df : DataFrame) : DataFrame :=
  match ensure_columns_exist df LOCATION_COLS with
  | [] => df
  | _ :: _ => dropna df (ensure_columns_exist df LOCATION_COLS)
  end.

(** Stages 2 to 4 in sequence, as [main] runs them. *)
Definition clean_pipeline
  (parse_datetime strptime_HM : value -> option Timestamp)
  (parse_number : string -> option Q) (py_str : value -> string)
  (df : DataFrame) : result DataFrame :=
  df <- correct_types parse_datetime strptime_HM parse_number
          (handle_missing_values df) ;;
  clean_text py_str df.

(** The three-row table of the end-to-end scenario, as [read_csv] types
    it. *)
Definition scenario : DataFrame :=
  [ ("UNIQUE KEY", mkSeries DInt64 [VInt 1; VInt 2; VInt 3]);
    ("BOROUGH", mkSeries DObject [VStr " brooklyn "; NA; VStr "QUEENS"]);
    ("LATITUDE", mkSeries DFloat64 [VFloat (406 # 10); NA; VFloat (407 # 10)]);
    ("LONGITUDE",
      mkSeries DFloat64 [VFloat (-739 # 10); NA; VFloat (-738 # 10)]);
    ("NUMBER OF PERSONS INJURED", mkSeries DFloat64 [NA; VFloat 2; VFloat 0]);
    ("CONTRIBUTING FACTOR VEHICLE 1",
      mkSeries DObject [VStr "Unspecified"; VStr "Driver Inattention"; NA]);
    ("CRASH_DATE",
      mkSeries DObject
        [VStr "01/02/2021"; VStr "01/03/2021"; VStr "01/02/2021"]) ].

(** Stand-ins for the pandas parsers, enough to run the samples: the date
    parser knows the two dates of the scenario, the others know nothing. *)
Definition sample_parse_datetime (v : value) : option Timestamp :=
  match v with
  | VStr "01/02/2021" => Some (mkTimestamp 2021 1 2 0 0)
  | VStr "01/03/2021" => Some (mkTimestamp 2021 1 3 0 0)
  | _ => None
  end.

Definition sample_strptime_HM (v : value) : option Timestamp := None.
Definition sample_parse_number (x : string) : option Q := None.
Definition sample_py_str (v : value) : string := "".

(** A table with every location and injury column, with nulls in both. *)
Definition sample_full : DataFrame :=
  [ ("LATITUDE", mkSeries DFloat64 [VFloat (406 # 10); NA; VFloat (407 # 10)]);
    ("LONGITUDE", mkSeries DFloat64 [VFloat (-739 # 10); VFloat 1; NA]);
    ("NUMBER OF PERSONS INJURED", mkSeries DFloat64 [NA; VFloat 2; VFloat 0]);
    ("NUMBER OF PERSONS KILLED", mkSeries DInt64 [VInt 0; VInt 0; VInt 1]);
    ("NUMBER OF PEDESTRIANS INJURED", mkSeries DObject [NA; NA; NA]);
    ("NUMBER OF PEDESTRIANS KILLED", mkSeries DFloat64 [NA; NA; NA]);
    ("NUMBER OF CYCLIST INJURED", mkSeries DInt64 [VInt 1; VInt 0; VInt 0]);
    ("NUMBER OF CYCLIST KILLED", mkSeries DInt64 [VInt 0; VInt 0; VInt 0]);
    ("NUMBER OF MOTORIST INJURED", mkSeries DFloat64 [NA; VFloat 1; NA]);
    ("NUMBER OF MOTORIST KILLED", mkSeries DInt64 [VInt 0; VInt 0; VInt 0]) ].

(* ================================================================== *)
(** * Vocabulary of the statements *)

(** [for c in cols: df[c] = f(df[c])] seen column by column. *)
Definition apply_to (cols : list string) (f : Series -> Series)
  (df : DataFrame) : DataFrame :=
  map (fun '(n, s) => (n, if mem n cols then f s else s)) df.

(** The update that [f] performs when it does not raise. *)
Definition total (f : Series -> result Series) (s : Series) : Series :=
  match f s with
  | Ok s' => s'
  | Raise _ => s
  end.

Definition col_ok (cols : list string) (f : Series -> result Series)
  (col : string * Series) : bool :=
  negb (mem (fst col) cols) || is_ok (f (snd col)).



(** A table whose injury count has a fractional value. *)
Definition fractional_injuries : DataFrame :=
  [ ("UNIQUE KEY", mkSeries DInt64 [VInt 1; VInt 2]);
    ("NUMBER OF PERSONS INJURED", mkSeries DFloat64 [VFloat (3 # 2); VFloat 0]) ].




(** One step of the loop of [str.title]. *)
Definition title_char (prev : bool) (c : ascii) : ascii :=
  if is_lower c then (if prev then c else to_upper c)
  else if is_upper c then (if prev then to_lower c else c)
  else c.

Definition is_cased (c : ascii) : bool := is_lower c || is_upper c.

(** The first loop of [clean_text] on one text column: a textual or
    categorical column is cast to [string] and trimmed, any other column
    is left alone. *)
Definition trim_text (py_str : value -> string) (s : Series) : Series :=
  if is_string_dtype s || is_category s
  then str_method strip (astype_string py_str s)
  else s.

(** What [clean_text] does to the column named [c]. *)
Definition clean_series (py_str : value -> string) (c : string) (s : Series)
  : Series :=
  let s1 := if mem c TEXT_COLS then trim_text py_str s else s in
  let s2 := if mem c [BOROUGH] then total str_title s1 else s1 in
  if mem c FACTOR_COLS then replace_with_na "Unspecified" s2 else s2.

(** The borough column, once trimmed, offers the [.str] accessor. *)
Definition borough_ok (py_str : value -> string) (col : string * Series)
  : bool :=
  negb (mem (fst col) [BOROUGH])
  || str_accessor_ok (trim_text py_str (snd col)).

(** The sentinel replacement on one cell. *)
Definition unspecified_to_na (v : value) : value :=
  match v with
  | VStr x => if String.eqb x "Unspecified" then NA else v
  | _ => v
  end.




(** Counts in ascending order. *)
Fixpoint ascending (l : list (value * nat)) : Prop :=
  match l with
  | [] => True
  | x :: t => (forall y, In y t -> snd x <= snd y) /\ ascending t
  end.


(** The frame that [filter_and_group] leaves behind: the input with the
    year of the crash date as column [YEAR]. *)
Definition with_year (df : DataFrame) : DataFrame :=
  match get_col df CRASH_DATE with
  | Some s => assign df YEAR (total dt_year s)
  | None => df
  end.







(** The scenario table after stages 2 to 4, and the frame that [main]
    hands to the export stage. *)
Definition scenario_cleaned : DataFrame :=
  [ ("UNIQUE KEY", mkSeries DInt64 [VInt 1; VInt 3]);
    ("BOROUGH", mkSeries DString [VStr "Brooklyn"; VStr "Queens"]);
    ("LATITUDE", mkSeries DFloat64 [VFloat (406 # 10); VFloat (407 # 10)]);
    ("LONGITUDE", mkSeries DFloat64 [VFloat (-739 # 10); VFloat (-738 # 10)]);
    ("NUMBER OF PERSONS INJURED", mkSeries DNullableInt64 [VInt 0; VInt 0]);
    ("CONTRIBUTING FACTOR VEHICLE 1", mkSeries DString [NA; VStr "Unknown"]);
    ("CRASH_DATE",
      mkSeries DDatetime64
        [VDate (mkTimestamp 2021 1 2 0 0); VDate (mkTimestamp 2021 1 2 0 0)]) ].

Definition scenario_exported : DataFrame :=
  scenario_cleaned ++ [ ("YEAR", mkSeries DInt64 [VInt 2021; VInt 2021]) ].

(** A Parquet writer without its engine: every call raises. *)
Definition broken_parquet (df : DataFrame) (path : Path) : result unit :=
  Raise (ImportError "Unable to find a usable engine").

(** Every column has as many cells as the frame has rows. *)
Definition rectangular (df : DataFrame) : bool :=
  forallb (fun col => List.length (s_values (snd col)) =? nrows df) df.

(** No cell of a column named in [cols] is null. *)
Definition complete_in (cols : list string) (df : DataFrame) : bool :=
  forallb (fun col =>
             negb (mem (fst col) cols)
             || forallb notna (s_values (snd col))) df.

(** The columns that [handle_missing_values] looks at. *)
Definition MISSING_VALUE_COLS : list string :=
  LOCATION_COLS ++ INJURY_COLS ++ [FACTOR1].
(** The two fills of [handle_missing_values] on the column named [n]. *)
Definition fill_column (n : string) (s : Series) : Series :=
  let s1 := if mem n INJURY_COLS then fillna_zero s else s in
  if mem n [FACTOR1] then fillna_str "Unknown" s1 else s1.
(** [s] is a [datetime64] column, the only kind that offers [.dt]. *)
Definition is_datetime (s : Series) : bool :=
  match s_dtype s with DDatetime64 => true | _ => false end.

(** The artifacts of a frame on which every step was skipped. *)
Definition no_group_artifacts : GroupArtifacts :=
  mkGroupArtifacts None None None None None.

Definition no_stat_artifacts : StatArtifacts :=
  mkStatArtifacts None None None None None.

(** Every column name that some stage looks for. *)
Definition ROLE_COLS : list string :=
  LOCATION_COLS ++ INJURY_COLS ++ TEXT_COLS ++ DATE_COLS ++ TIME_COLS
  ++ [YEAR].
(** Counts in descending order. *)
Fixpoint descending (l : list (value * nat)) : Prop :=
  match l with
  | [] => True
  | x :: t => (forall y, In y t -> snd y <= snd x) /\ descending t
  end.
(** The scenario table after stage 3. *)
Definition scenario_typed : DataFrame :=
  [ ("UNIQUE KEY", mkSeries DInt64 [VInt 1; VInt 3]);
    ("BOROUGH", mkSeries DCategory [VStr " brooklyn "; VStr "QUEENS"]);
    ("LATITUDE", mkSeries DFloat64 [VFloat (406 # 10); VFloat (407 # 10)]);
    ("LONGITUDE", mkSeries DFloat64 [VFloat (-739 # 10); VFloat (-738 # 10)]);
    ("NUMBER OF PERSONS INJURED", mkSeries DNullableInt64 [VInt 0; VInt 0]);
    ("CONTRIBUTING FACTOR VEHICLE 1",
      mkSeries DObject [VStr "Unspecified"; VStr "Unknown"]);
    ("CRASH_DATE",
      mkSeries DDatetime64
        [VDate (mkTimestamp 2021 1 2 0 0); VDate (mkTimestamp 2021 1 2 0 0)]) ].

(** What stages 5 and 6 write on the cleaned scenario table. *)
Definition scenario_group_artifacts : GroupArtifacts :=
  mkGroupArtifacts (Some 0)
    (Some [(VStr "Brooklyn", 1); (VStr "Queens", 1)])
    (Some [(VInt 2021, 2)])
    (Some (mkPivot [VInt 2021] [VStr "Brooklyn"; VStr "Queens"]
             [[Some 1; Some 1]]))
    (Some [ ("NUMBER OF PERSONS INJURED",
              mkSeries DNullableInt64 [VInt 0; VInt 0]) ]).

Definition scenario_stat_artifacts : StatArtifacts :=
  mkStatArtifacts
    (Some [ ("NUMBER OF PERSONS INJURED",
              mkSeries DNullableInt64 [VInt 0; VInt 0]) ])
    (Some (mkSeries DNullableInt64 [VInt 0; VInt 0]))
    (Some [(NA, 1); (VStr "Unknown", 1)])
    (Some (VStr "Brooklyn"))
    (Some [(VStr "Brooklyn", 1); (VStr "Queens", 1)]).

(** A rectangular table with nothing missing. *)
Definition complete_sample : DataFrame :=
  [ ("UNIQUE KEY", mkSeries DInt64 [VInt 1; VInt 2]);
    ("LATITUDE", mkSeries DFloat64 [VFloat (406 # 10); VFloat (407 # 10)]);
    ("LONGITUDE", mkSeries DFloat64 [VFloat (-739 # 10); VFloat (-738 # 10)]);
    ("NUMBER OF PERSONS INJURED", mkSeries DInt64 [VInt 0; VInt 2]);
    ("CONTRIBUTING FACTOR VEHICLE 1",
      mkSeries DObject [VStr "Unspecified"; VStr "Backing Unsafely"]) ].

(** A table with none of the columns of the schema. *)
Definition bare_frame : DataFrame :=
  [ ("ZIP CODE", mkSeries DObject [VStr "11201"; NA]);
    ("COLLISION_ID", mkSeries DInt64 [VInt 10; VInt 11]) ].

(** A JSON writer that fails on the cleaned table only. *)
Definition json_fails_on_clean (df : DataFrame) (path : Path) : result unit :=
  if String.eqb (name path) "collisions_clean.json"
  then Raise (OSError "No space left on device")
  else Ok tt.

(* ================================================================== *)
(** * Frame lemmas *)

Lemma mem_In (c : string) (cols : list string) :
  mem c cols = true <-> In c cols.
Proof.
  unfold mem. rewrite existsb_exists. split.
  - intros (x & Hx & E). apply String.eqb_eq in E. now subst.
  - intros H. exists c. split; [assumption | apply String.eqb_refl].
Qed.

Lemma mem_cons (c x : string) (cols : list string) :
  mem c (x :: cols) = String.eqb c x || mem c cols.
Proof. reflexivity. Qed.

Lemma update_col_apply_to (c : string) f (df : DataFrame) :
  update_col c f df = apply_to [c] f df.
Proof.
  unfold update_col, apply_to. apply map_ext. intros [n s].
  rewrite mem_cons. simpl. rewrite orb_false_r.
  now destruct (String.eqb n c).
Qed.

Lemma update_cols_apply_to (cols : list string) f :
  NoDup cols -> forall df, update_cols cols f df = apply_to cols f df.
Proof.
  induction 1 as [| c cols Hc Hnd IH]; intros df.
  - unfold apply_to. simpl. induction df as [| [n s] df IHdf]; simpl;
      [reflexivity | now rewrite <- IHdf].
  - unfold update_cols in *. simpl. rewrite IH.
    unfold update_col, apply_to. rewrite map_map. apply map_ext.
    intros [n s]. rewrite mem_cons.
    destruct (String.eqb n c) eqn:E; simpl; [| reflexivity].
    apply String.eqb_eq in E. subst n.
    destruct (mem c cols) eqn:M; [| reflexivity].
    apply mem_In in M. contradiction.
Qed.

Lemma columns_apply_to cols f df : columns (apply_to cols f df) = columns df.
Proof.
  unfold columns, apply_to. rewrite map_map. apply map_ext. now intros [n s].
Qed.

Lemma has_col_apply_to cols f df c :
  has_col (apply_to cols f df) c = has_col df c.
Proof. unfold has_col. now rewrite columns_apply_to. Qed.

Lemma get_col_map (g : string -> Series -> Series) df c :
  get_col (map (fun '(n, s) => (n, g n s)) df) c
  = option_map (g c) (get_col df c).
Proof.
  induction df as [| [n s] df IH]; simpl; [reflexivity |].
  destruct (String.eqb n c) eqn:E; [| exact IH].
  apply String.eqb_eq in E. now subst.
Qed.

Lemma get_col_apply_to cols f df c :
  get_col (apply_to cols f df) c
  = option_map (fun s => if mem c cols then f s else s) (get_col df c).
Proof.
  unfold apply_to. exact (get_col_map (fun n s => if mem n cols then f s else s) df c).
Qed.

Lemma has_col_get_col df c :
  has_col df c = true <-> exists s, get_col df c = Some s.
Proof.
  unfold has_col, columns. induction df as [| [n s] df IH]; simpl.
  - split; [discriminate | now intros [s H]].
  - rewrite String.eqb_sym. destruct (String.eqb n c); simpl.
    + split; [intros _; now exists s | reflexivity].
    + exact IH.
Qed.

Lemma mem_ensure df cols c :
  has_col df c = true -> mem c (ensure_columns_exist df cols) = mem c cols.
Proof.
  intros H. unfold ensure_columns_exist.
  induction cols as [| x cols IH]; cbn [filter]; [reflexivity |].
  destruct (has_col df x) eqn:Hx.
  - rewrite !mem_cons, IH. reflexivity.
  - rewrite mem_cons, IH. destruct (String.eqb c x) eqn:E; [| reflexivity].
    apply String.eqb_eq in E. subst. congruence.
Qed.

Lemma NoDup_ensure df cols : NoDup cols -> NoDup (ensure_columns_exist df cols).
Proof. apply NoDup_filter. Qed.

Lemma has_col_In df n s : In (n, s) df -> has_col df n = true.
Proof.
  intros H. apply mem_In. unfold columns. now apply (in_map fst) in H.
Qed.

(** The loops of the script, [for c in ensure_columns_exist(df, cols)],
    update exactly the columns of [df] named in [cols]. *)
Lemma update_cols_ensure cols f df :
  NoDup cols ->
  update_cols (ensure_columns_exist df cols) f df = apply_to cols f df.
Proof.
  intros Hnd. rewrite update_cols_apply_to by now apply NoDup_ensure.
  unfold apply_to. apply map_ext_in. intros [n s] Hin.
  rewrite mem_ensure by exact (has_col_In _ _ _ Hin). reflexivity.
Qed.

Ltac nodup_strings :=
  repeat (constructor; [simpl; intuition discriminate |]); constructor.

Lemma NoDup_INJURY : NoDup INJURY_COLS.
Proof. nodup_strings. Qed.

Lemma NoDup_TEXT : NoDup TEXT_COLS.
Proof. nodup_strings. Qed.

Lemma NoDup_FACTOR : NoDup FACTOR_COLS.
Proof. nodup_strings. Qed.

Lemma NoDup_DATE : NoDup DATE_COLS.
Proof. nodup_strings. Qed.

Lemma NoDup_TIME : NoDup TIME_COLS.
Proof. nodup_strings. Qed.

Lemma apply_to_absent cols f df :
  (forall c, In c cols -> has_col df c = false) -> apply_to cols f df = df.
Proof.
  intros H. unfold apply_to. rewrite <- (map_id df) at 2.
  apply map_ext_in. intros [n s] Hin.
  destruct (mem n cols) eqn:M; [| reflexivity].
  apply mem_In in M. apply H in M.
  rewrite (has_col_In _ _ _ Hin) in M. discriminate.
Qed.

Lemma update_col_if_present c f df :
  (if has_col df c then update_col c f df else df) = apply_to [c] f df.
Proof.
  destruct (has_col df c) eqn:H.
  - apply update_col_apply_to.
  - symmetry. apply apply_to_absent. intros x [<- | []]. exact H.
Qed.

Lemma disjoint_mem (a b : list string) c :
  forallb (fun x => negb (mem x b)) a = true -> In c a -> mem c b = false.
Proof.
  intros H Hin. rewrite forallb_forall in H. apply H in Hin.
  now apply negb_true_iff in Hin.
Qed.

(* ================================================================== *)
(** * Stage 2: what [handle_missing_values] guarantees *)

Lemma handle_missing_values_shape df :
  handle_missing_values df
  = apply_to [FACTOR1] (fillna_str "Unknown")
      (apply_to INJURY_COLS fillna_zero (located df)).
Proof.
  unfold handle_missing_values. fold (located df).
  set (d1 := located df).
  assert (E : match ensure_columns_exist d1 INJURY_COLS with
              | [] => d1
              | _ :: _ =>
                  update_cols (ensure_columns_exist d1 INJURY_COLS) fillna_zero d1
              end = apply_to INJURY_COLS fillna_zero d1).
  { rewrite <- (update_cols_ensure INJURY_COLS fillna_zero d1 NoDup_INJURY).
    now destruct (ensure_columns_exist d1 INJURY_COLS). }
  cbv zeta. rewrite E. apply update_col_if_present.
Qed.

Lemma get_col_dropna df subset c :
  get_col (dropna df subset) c
  = option_map (take_rows (kept_rows df subset)) (get_col df c).
Proof.
  unfold dropna.
  exact (get_col_map (fun _ s => take_rows (kept_rows df subset) s) df c).
Qed.

Lemma kept_rows_complete df subset c i :
  In i (kept_rows df subset) -> In c subset ->
  nth i (col_values df c) NA <> NA.
Proof.
  unfold kept_rows. rewrite filter_In. intros [_ H] Hc.
  unfold row_complete in H. rewrite forallb_forall in H.
  specialize (H _ Hc). intros E. rewrite E in H. discriminate.
Qed.

Lemma fillna_zero_notna s :
  Forall (fun v => v <> NA) (s_values (fillna_zero s)).
Proof.
  unfold fillna_zero, map_values. simpl. apply Forall_forall.
  intros v Hv. apply in_map_iff in Hv. destruct Hv as (x & <- & _).
  destruct x; simpl; try discriminate. now destruct (s_dtype s).
Qed.

(** C7.  Every location column and every injury column of the input is a
    column of [handle_missing_values]'s output without a single null cell:
    the rows with a null location are gone, and the injury cells of the rows
    that remain are the input cells with zero in place of null. *)
Theorem C7_missing_values_invariant (df : DataFrame) (c : string) :
  In c (LOCATION_COLS ++ INJURY_COLS) ->
  has_col df c = true ->
  exists s,
    get_col (handle_missing_values df) c = Some s
    /\ Forall (fun v => v <> NA) (s_values s)
    /\ (In c INJURY_COLS ->
        exists s0,
          get_col (located df) c = Some s0
          /\ s_values s
             = map (fun v => if isna v then zero_of (s_dtype s0) else v)
                 (s_values s0)).
Proof.
  intros Hc Hhas.
  assert (HF : mem c [FACTOR1] = false).
  { apply (disjoint_mem (LOCATION_COLS ++ INJURY_COLS)); [reflexivity | exact Hc]. }
  rewrite handle_missing_values_shape, !get_col_apply_to, HF.
  destruct (proj1 (has_col_get_col df c) Hhas) as [s0 Hs0].
  apply in_app_or in Hc. destruct Hc as [Hloc | Hinj].
  - (* a location column: its rows were filtered *)
    assert (HI : mem c INJURY_COLS = false)
      by (apply (disjoint_mem LOCATION_COLS); [reflexivity | exact Hloc]).
    rewrite HI.
    assert (Hin : In c (ensure_columns_exist df LOCATION_COLS)).
    { unfold ensure_columns_exist. apply filter_In. now split. }
    unfold located.
    destruct (ensure_columns_exist df LOCATION_COLS) as [| x cols] eqn:E;
      [destruct Hin |].
    rewrite get_col_dropna, Hs0. simpl.
    eexists. split; [reflexivity |]. split.
    + simpl. apply Forall_forall. intros v Hv. apply in_map_iff in Hv.
      destruct Hv as (i & <- & Hi).
      pose proof (kept_rows_complete df (x :: cols) c i Hi Hin) as Hn.
      unfold col_values in Hn. now rewrite Hs0 in Hn.
    + intros Hinj.
      assert (mem c INJURY_COLS = true) by (apply mem_In; exact Hinj).
      congruence.
  - (* an injury column: its nulls were filled *)
    assert (HI : mem c INJURY_COLS = true) by now apply mem_In.
    rewrite HI.
    assert (Hh : has_col (located df) c = true).
    { unfold located. destruct (ensure_columns_exist df LOCATION_COLS);
        [exact Hhas |].
      apply has_col_get_col. rewrite get_col_dropna, Hs0. simpl. eauto. }
    destruct (proj1 (has_col_get_col _ c) Hh) as [s1 Hs1].
    rewrite Hs1. simpl. eexists. split; [reflexivity |]. split.
    + apply fillna_zero_notna.
    + intros _. exists s1. split; reflexivity.
Qed.

(** The theorem at the sample table, for an injury column with nulls. *)
Lemma C7_witness :
  (exists s,
      get_col (handle_missing_values sample_full) "NUMBER OF MOTORIST INJURED"
      = Some s
      /\ Forall (fun v => v <> NA) (s_values s)
      /\ (In "NUMBER OF MOTORIST INJURED" INJURY_COLS ->
          exists s0,
            get_col (located sample_full) "NUMBER OF MOTORIST INJURED" = Some s0
            /\ s_values s
               = map (fun v => if isna v then zero_of (s_dtype s0) else v)
                   (s_values s0))).
Proof.
  apply (C7_missing_values_invariant sample_full "NUMBER OF MOTORIST INJURED").
  - simpl. tauto.
  - reflexivity.
Defined.

(* ================================================================== *)
(** * Fallible loops *)

Lemma forallb_map {A B} (p : B -> bool) (g : A -> B) (l : list A) :
  forallb p (map g l) = forallb (fun x => p (g x)) l.
Proof. induction l as [| x l IH]; simpl; [reflexivity | now rewrite IH]. Qed.

Lemma forallb_ext_in {A} (p q : A -> bool) (l : list A) :
  (forall x, In x l -> p x = q x) -> forallb p l = forallb q l.
Proof.
  induction l as [| x l IH]; simpl; intros H; [reflexivity |].
  rewrite (H x) by now left. f_equal. apply IH. intros y Hy. apply H. now right.
Qed.

Lemma update_col_e_ok c f df df' :
  update_col_e c f df = Ok df' -> df' = update_col c (total f) df.
Proof.
  unfold update_col_e, update_col. revert df'.
  induction df as [| [n s] df IH]; simpl; intros df' H.
  - now inversion H.
  - unfold total. destruct (String.eqb n c).
    + destruct (f s) as [s' | e]; simpl in H; [| discriminate].
      destruct (map_result _ df) as [r | e]; simpl in H; [| discriminate].
      inversion H. f_equal. now apply IH.
    + simpl in H.
      destruct (map_result _ df) as [r | e]; simpl in H; [| discriminate].
      inversion H. f_equal. now apply IH.
Qed.

Lemma update_col_e_is_ok c f df :
  is_ok (update_col_e c f df) = forallb (col_ok [c] f) df.
Proof.
  unfold update_col_e.
  induction df as [| [n s] df IH]; [reflexivity |].
  cbn [map_result forallb]. rewrite <- IH.
  unfold col_ok. cbn [fst snd]. rewrite mem_cons. cbn [mem existsb].
  rewrite orb_false_r. destruct (String.eqb n c); simpl.
  - destruct (f s); simpl; [| reflexivity].
    now destruct (map_result _ df).
  - now destruct (map_result _ df).
Qed.

Lemma update_cols_e_ok cols f : forall df df',
  update_cols_e cols f df = Ok df' -> df' = update_cols cols (total f) df.
Proof.
  induction cols as [| c cols IH]; simpl; intros df df' H.
  - now inversion H.
  - destruct (update_col_e c f df) as [d1 | e] eqn:E; simpl in H;
      [| discriminate].
    apply update_col_e_ok in E. subst d1. now apply IH.
Qed.


(** A loop of the script whose body may raise: it completes exactly when
    the body does on every column it visits, and then it has updated
    exactly the columns of [df] named in [cols]. *)
Lemma update_cols_e_ensure_ok cols f df df' :
  NoDup cols ->
  update_cols_e (ensure_columns_exist df cols) f df = Ok df' ->
  df' = apply_to cols (total f) df.
Proof.
  intros Hnd H. apply update_cols_e_ok in H. subst df'.
  now apply update_cols_ensure.
Qed.


Lemma get_col_In df c s : get_col df c = Some s -> In (c, s) df.
Proof.
  induction df as [| [n x] df IH]; simpl; [discriminate |].
  destruct (String.eqb n c) eqn:E.
  - apply String.eqb_eq in E. intros H. inversion H. subst. now left.
  - intros H. right. now apply IH.
Qed.

(* ================================================================== *)
(** * Stage 3: what [correct_types] guarantees *)




Lemma Forall2_map_l {A B C} (R : B -> C -> Prop) (g : A -> B) l l' :
  Forall2 (fun x y => R (g x) y) l l' -> Forall2 R (map g l) l'.
Proof. induction 1; simpl; constructor; assumption. Qed.

Lemma Forall2_map_r {A B C} (R : A -> C -> Prop) (g : B -> C) l :
  (forall x, In x l -> R (fst x) (g (snd x))) ->
  Forall2 R (map fst l) (map g (map snd l)).
Proof.
  induction l as [| x l IH]; simpl; intros H; constructor.
  - apply H. now left.
  - apply IH. intros y Hy. apply H. now right.
Qed.

Lemma Forall2_map_same {A B} (R : A -> B -> Prop) (g : A -> B) l :
  (forall x, R x (g x)) -> Forall2 R l (map g l).
Proof. intros H. induction l; simpl; constructor; auto. Qed.

Section CorrectTypes.

Variable parse_datetime : value -> option Timestamp.
Variable strptime_HM : value -> option Timestamp.
Variable parse_number : string -> option Q.

Local Abbreviation correct :=
  (correct_types parse_datetime strptime_HM parse_number).
Local Abbreviation coerce :=
  (fun s => astype_Int64 (to_numeric parse_number s)).
Local Abbreviation time_of :=
  (fun s => dt_time (to_datetime strptime_HM s)).

Lemma correct_types_shape df out :
  correct df = Ok out ->
  out = apply_to [BOROUGH] astype_category
          (apply_to INJURY_COLS (total coerce)
             (apply_to TIME_COLS (total time_of)
                (apply_to DATE_COLS (to_datetime parse_datetime) df))).
Proof.
  unfold correct_types. rewrite (update_cols_ensure _ _ _ NoDup_DATE).
  set (d1 := apply_to DATE_COLS _ df).
  destruct (update_cols_e (ensure_columns_exist d1 TIME_COLS) _ d1)
    as [d2 | e] eqn:E2; simpl; [| discriminate].
  apply (update_cols_e_ensure_ok _ _ _ _ NoDup_TIME) in E2.
  match goal with
  | |- context [update_cols_e ?a ?f d2] =>
      destruct (update_cols_e a f d2) as [d3 | e] eqn:E3
  end; simpl; [| discriminate].
  apply (update_cols_e_ensure_ok _ _ _ _ NoDup_INJURY) in E3.
  rewrite update_col_if_present. intros H. inversion H. now subst.
Qed.




End CorrectTypes.

(* ================================================================== *)
(** * Text lemmas *)

Ltac by_cases_on_char c :=
  destruct c as [[] [] [] [] [] [] [] []]; vm_compute; intuition congruence.

Lemma lower_not_upper c : is_lower c = true -> is_upper c = false.
Proof. by_cases_on_char c. Qed.






Lemma title_from_cons prev c s :
  title_from prev (String c s)
  = String (title_char prev c) (title_from (is_cased c) s).
Proof.
  unfold title_char, is_cased. simpl.
  destruct (is_lower c); [reflexivity |]. now destruct (is_upper c).
Qed.










Lemma title_from_empty prev s :
  title_from prev s = EmptyString -> s = EmptyString.
Proof. destruct s; [reflexivity |]. rewrite title_from_cons. discriminate. Qed.





(* ================================================================== *)
(** * Stage 4: what [clean_text] does, column by column *)

Lemma update_col_e_total c f g df :
  (forall s, f s = Ok (g s)) -> update_col_e c f df = Ok (update_col c g df).
Proof.
  intros H. unfold update_col_e, update_col.
  induction df as [| [n s] df IH]; [reflexivity |].
  cbn [map_result map]. rewrite IH.
  destruct (String.eqb n c); [rewrite H |]; reflexivity.
Qed.

Lemma update_cols_e_total cols f g :
  (forall s, f s = Ok (g s)) ->
  forall df, update_cols_e cols f df = Ok (update_cols cols g df).
Proof.
  intros H. induction cols as [| c cols IH]; intros df; [reflexivity |].
  cbn [update_cols_e]. rewrite (update_col_e_total c f g df H). cbn [bind].
  apply IH.
Qed.

Lemma update_col_e_absent c f df :
  has_col df c = false -> update_col_e c f df = Ok df.
Proof.
  unfold has_col, columns, update_col_e.
  induction df as [| [n s] df IH]; [reflexivity |].
  cbn [map mem existsb fst map_result]. intros H.
  apply orb_false_iff in H. destruct H as [Hn Hr].
  rewrite String.eqb_sym in Hn. rewrite Hn. cbn [bind].
  unfold mem in IH. now rewrite (IH Hr).
Qed.

Lemma borough_in_text n :
  mem n [BOROUGH] = true ->
  mem n TEXT_COLS = true /\ mem n FACTOR_COLS = false.
Proof.
  intros H. apply mem_In in H. destruct H as [<- | []]. now split.
Qed.

Lemma factor_in_text n :
  mem n FACTOR_COLS = true ->
  mem n TEXT_COLS = true /\ mem n [BOROUGH] = false.
Proof.
  intros H. apply mem_In in H. unfold FACTOR_COLS in H. simpl in H.
  repeat (destruct H as [<- | H]; [now split |]). destruct H.
Qed.

Section CleanText.

Variable py_str : value -> string.

Local Abbreviation clean := (clean_text py_str).
Local Abbreviation trim := (trim_text py_str).

Lemma trim_step s :
  (if is_string_dtype s || is_category s
   then str_strip (astype_string py_str s)
   else Ok s) = Ok (trim s).
Proof. unfold trim_text. now destruct (is_string_dtype s || is_category s). Qed.

Lemma is_ok_str_title s : is_ok (str_title s) = str_accessor_ok s.
Proof. unfold str_title. now destruct (str_accessor_ok s). Qed.

Lemma clean_text_unfold df :
  clean df
  = (d2 <- update_col_e BOROUGH str_title (apply_to TEXT_COLS trim df) ;;
     Ok (apply_to FACTOR_COLS (replace_with_na "Unspecified") d2)).
Proof.
  unfold clean_text.
  rewrite (update_cols_e_total _ _ trim trim_step).
  rewrite (update_cols_ensure _ _ _ NoDup_TEXT). cbn [bind].
  set (d1 := apply_to TEXT_COLS trim df).
  assert (E : (if has_col d1 BOROUGH
               then update_col_e BOROUGH str_title d1 else Ok d1)
              = update_col_e BOROUGH str_title d1).
  { destruct (has_col d1 BOROUGH) eqn:H; [reflexivity |].
    symmetry. now apply update_col_e_absent. }
  rewrite E. destruct (update_col_e BOROUGH str_title d1); [| reflexivity].
  cbn [bind]. now rewrite (update_cols_ensure _ _ _ NoDup_FACTOR).
Qed.

(** [clean_text] raises exactly when the borough column, once trimmed,
    does not offer the [.str] accessor. *)
Lemma clean_text_is_ok df :
  is_ok (clean df) = forallb (borough_ok py_str) df.
Proof.
  rewrite clean_text_unfold.
  pose proof (update_col_e_is_ok BOROUGH str_title
                (apply_to TEXT_COLS trim df)) as H.
  destruct (update_col_e BOROUGH str_title _); cbn [bind is_ok] in *;
    rewrite H; unfold apply_to; rewrite forallb_map;
    apply forallb_ext_in; intros [n s] _;
    unfold col_ok, borough_ok; cbn [fst snd];
    (destruct (mem n [BOROUGH]) eqn:M; [| reflexivity]);
    rewrite (proj1 (borough_in_text n M));
    cbn [negb orb]; apply is_ok_str_title.
Qed.

(** When it completes, [clean_text] has applied [clean_series] to every
    column. *)
Lemma clean_text_shape df out :
  clean df = Ok out ->
  out = map (fun '(n, s) => (n, clean_series py_str n s)) df.
Proof.
  rewrite clean_text_unfold.
  destruct (update_col_e BOROUGH str_title _) as [d2 |] eqn:E;
    cbn [bind]; [| discriminate].
  apply update_col_e_ok in E. subst d2. intros H. inversion H.
  rewrite update_col_apply_to. unfold apply_to. rewrite !map_map.
  apply map_ext. now intros [n s].
Qed.


Lemma replace_with_na_values s :
  s_values (replace_with_na "Unspecified" s)
  = map unspecified_to_na (s_values s).
Proof. reflexivity. Qed.



(* ---------------------------------------------------------------- *)
(** ** Running [clean_text] on its own output *)

Lemma map_fixed {A} (g : A -> A) (l : list A) :
  Forall (fun x => g x = x) l -> map g l = l.
Proof. induction 1; simpl; congruence. Qed.

Lemma series_eta s : mkSeries (s_dtype s) (s_values s) = s.
Proof. now destruct s. Qed.

















End CleanText.


(** The exception does not depend on the parsers: the cell is a float. *)
Lemma fractional_injuries_raise parse_datetime strptime_HM parse_number :
  correct_types parse_datetime strptime_HM parse_number fractional_injuries
  = Raise (TypeError "cannot safely cast non-equivalent float64 to int64").
Proof. reflexivity. Qed.




(* ================================================================== *)
(** * Stages 2 to 4 together: the first contributing factor *)

Section Pipeline.

Variable parse_datetime : value -> option Timestamp.
Variable strptime_HM : value -> option Timestamp.
Variable parse_number : string -> option Q.
Variable py_str : value -> string.

Local Abbreviation pipeline :=
  (clean_pipeline parse_datetime strptime_HM parse_number py_str).

Lemma trim_values s :
  s_values (trim_text py_str s) = s_values s
  \/ s_values (trim_text py_str s)
     = map (fun v => str_apply strip
                       match v with
                       | NA => NA
                       | VStr x => VStr x
                       | _ => VStr (py_str v)
                       end) (s_values s).
Proof.
  unfold trim_text. destruct (is_string_dtype s || is_category s);
    [right | left; reflexivity].
  unfold str_method, astype_string. cbn [s_values]. now rewrite map_map.
Qed.

(** C10.  Take the rows of the source that survive the location filter.
    Where such a row has a null first contributing factor, the cleaned
    table has the text "Unknown"; where it has the text "Unspecified",
    the cleaned table has null. *)
Theorem C10_unknown_and_unspecified (df out : DataFrame) (s0 : Series) :
  pipeline df = Ok out ->
  get_col (located df) FACTOR1 = Some s0 ->
  exists s,
    get_col out FACTOR1 = Some s
    /\ Forall2 (fun v0 v => (v0 = NA -> v = VStr "Unknown")
                           /\ (v0 = VStr "Unspecified" -> v = NA))
         (s_values s0) (s_values s).
Proof.
  unfold clean_pipeline. intros Hrun Hs0.
  destruct (correct_types _ _ _ (handle_missing_values df)) as [d3 |] eqn:E3;
    cbn [bind] in Hrun; [| discriminate].
  apply correct_types_shape in E3. apply clean_text_shape in Hrun.
  subst out d3. rewrite handle_missing_values_shape.
  rewrite (get_col_map (clean_series py_str)), !get_col_apply_to, Hs0.
  cbn [option_map]. eexists. split; [reflexivity |].
  change (mem FACTOR1 [BOROUGH]) with false.
  change (mem FACTOR1 INJURY_COLS) with false.
  change (mem FACTOR1 TIME_COLS) with false.
  change (mem FACTOR1 DATE_COLS) with false.
  change (mem FACTOR1 [FACTOR1]) with true. cbv iota.
  unfold clean_series.
  change (mem FACTOR1 [BOROUGH]) with false.
  change (mem FACTOR1 TEXT_COLS) with true.
  change (mem FACTOR1 FACTOR_COLS) with true. cbv iota zeta.
  rewrite replace_with_na_values.
  destruct (trim_values (fillna_str "Unknown" s0)) as [-> | ->];
    unfold fillna_str; cbn [s_values]; rewrite !map_map;
    apply Forall2_map_same; intros v; split; intros ->; reflexivity.
Qed.

End Pipeline.

(** C10 at the scenario table. *)
Lemma C10_witness :
  exists s,
    get_col
      [ ("UNIQUE KEY", mkSeries DInt64 [VInt 1; VInt 3]);
        ("BOROUGH", mkSeries DString [VStr "Brooklyn"; VStr "Queens"]);
        ("LATITUDE", mkSeries DFloat64 [VFloat (406 # 10); VFloat (407 # 10)]);
        ("LONGITUDE",
          mkSeries DFloat64 [VFloat (-739 # 10); VFloat (-738 # 10)]);
        ("NUMBER OF PERSONS INJURED", mkSeries DNullableInt64 [VInt 0; VInt 0]);
        ("CONTRIBUTING FACTOR VEHICLE 1",
          mkSeries DString [NA; VStr "Unknown"]);
        ("CRASH_DATE",
          mkSeries DDatetime64
            [VDate (mkTimestamp 2021 1 2 0 0);
             VDate (mkTimestamp 2021 1 2 0 0)]) ]
      FACTOR1 = Some s
    /\ Forall2 (fun v0 v => (v0 = NA -> v = VStr "Unknown")
                           /\ (v0 = VStr "Unspecified" -> v = NA))
         [VStr "Unspecified"; NA] (s_values s).
Proof.
  apply (C10_unknown_and_unspecified sample_parse_datetime sample_strptime_HM
           sample_parse_number sample_py_str scenario _
           (mkSeries DObject [VStr "Unspecified"; NA])).
  - reflexivity.
  - reflexivity.
Defined.

(* ================================================================== *)
(** * The end-to-end scenario *)

Section Scenario.

Variable parse_datetime : value -> option Timestamp.
Variable strptime_HM : value -> option Timestamp.
Variable parse_number : string -> option Q.
Variable py_str : value -> string.

(** C1.  On the three-row table of the scenario, given that pandas reads
    "01/02/2021" as 2 January 2021: stages 2 to 4 drop row 2, turn row 1's
    borough into "Brooklyn" and its first factor into null; the year
    column that [filter_and_group] adds is 2021 for both remaining rows,
    the counts by year are {2021: 2} and the counts by borough are
    {"Brooklyn": 1, "Queens": 1}. *)
Theorem C1_scenario :
  parse_datetime (VStr "01/02/2021") = Some (mkTimestamp 2021 1 2 0 0) ->
  exists cleaned out arts,
    clean_pipeline parse_datetime strptime_HM parse_number py_str scenario
    = Ok cleaned
    /\ filter_and_group cleaned = Ok (out, arts)
    /\ col_values cleaned UNIQUE_KEY_COL = [VInt 1; VInt 3]
    /\ col_values cleaned BOROUGH = [VStr "Brooklyn"; VStr "Queens"]
    /\ col_values cleaned FACTOR1 = [NA; VStr "Unknown"]
    /\ col_values out YEAR = [VInt 2021; VInt 2021]
    /\ collisions_by_year arts = Some [(VInt 2021, 2)]
    /\ collisions_by_borough arts
       = Some [(VStr "Brooklyn", 1); (VStr "Queens", 1)].
Proof.
  intros Hparse.
  assert (E : clean_pipeline parse_datetime strptime_HM parse_number py_str
                scenario
              = Ok [ ("UNIQUE KEY", mkSeries DInt64 [VInt 1; VInt 3]);
                     ("BOROUGH",
                       mkSeries DString [VStr "Brooklyn"; VStr "Queens"]);
                     ("LATITUDE",
                       mkSeries DFloat64
                         [VFloat (406 # 10); VFloat (407 # 10)]);
                     ("LONGITUDE",
                       mkSeries DFloat64
                         [VFloat (-739 # 10); VFloat (-738 # 10)]);
                     ("NUMBER OF PERSONS INJURED",
                       mkSeries DNullableInt64 [VInt 0; VInt 0]);
                     ("CONTRIBUTING FACTOR VEHICLE 1",
                       mkSeries DString [NA; VStr "Unknown"]);
                     ("CRASH_DATE",
                       mkSeries DDatetime64
                         [VDate (mkTimestamp 2021 1 2 0 0);
                          VDate (mkTimestamp 2021 1 2 0 0)]) ]).
  { unfold clean_pipeline.
    let d := eval vm_compute in (handle_missing_values scenario) in
    change (handle_missing_values scenario) with d.
    unfold correct_types. cbn. unfold to_datetime. cbn [map s_values].
    rewrite !Hparse.
    reflexivity. }
  rewrite E. do 3 eexists. split; [reflexivity |].
  split; [vm_compute; reflexivity |]. repeat split.
Qed.

End Scenario.

(** C1 with the sample date parser. *)
Lemma C1_witness :
  exists cleaned out arts,
    clean_pipeline sample_parse_datetime sample_strptime_HM
      sample_parse_number sample_py_str scenario = Ok cleaned
    /\ filter_and_group cleaned = Ok (out, arts)
    /\ col_values cleaned UNIQUE_KEY_COL = [VInt 1; VInt 3]
    /\ col_values cleaned BOROUGH = [VStr "Brooklyn"; VStr "Queens"]
    /\ col_values cleaned FACTOR1 = [NA; VStr "Unknown"]
    /\ col_values out YEAR = [VInt 2021; VInt 2021]
    /\ collisions_by_year arts = Some [(VInt 2021, 2)]
    /\ collisions_by_borough arts
       = Some [(VStr "Brooklyn", 1); (VStr "Queens", 1)].
Proof.
  apply (C1_scenario sample_parse_datetime sample_strptime_HM
           sample_parse_number sample_py_str).
  reflexivity.
Defined.

(* ================================================================== *)
(** * Ranking of counts: [sort_values] against [idxmax] *)


Lemma insert_count_In x y l :
  In y (insert_count x l) <-> y = x \/ In y l.
Proof.
  induction l as [| h t IH]; simpl.
  - intuition.
  - destruct (snd x <=? snd h); simpl; [intuition |].
    rewrite IH. intuition.
Qed.

Lemma insert_count_ascending x l :
  ascending l -> ascending (insert_count x l).
Proof.
  induction l as [| h t IH]; simpl; intros H.
  - split; [intros y [] | exact I].
  - destruct H as [Hh Ht]. destruct (snd x <=? snd h) eqn:E; simpl.
    + apply Nat.leb_le in E. split; [| split; assumption].
      intros y [<- | Hy]; [exact E |]. specialize (Hh _ Hy). lia.
    + apply Nat.leb_gt in E. split; [| now apply IH].
      intros y Hy. apply insert_count_In in Hy.
      destruct Hy as [-> | Hy]; [lia | now apply Hh].
Qed.

Lemma sort_ascending_ascending l : ascending (sort_ascending l).
Proof.
  induction l as [| x t IH]; simpl; [exact I |].
  now apply insert_count_ascending.
Qed.






(* ================================================================== *)
(** * Group keys *)

Lemma value_eqb_eq a b : value_eqb a b = true <-> a = b.
Proof.
  unfold value_eqb. destruct (value_eq_dec a b); split; congruence.
Qed.

Lemma value_eqb_refl a : value_eqb a a = true.
Proof. now apply value_eqb_eq. Qed.

Lemma notna_iff v : notna v = true <-> v <> NA.
Proof.
  destruct v; cbn; split; intros H; try reflexivity; try discriminate.
  now contradiction H.
Qed.

Lemma unique_In v l : In v (unique l) <-> In v l.
Proof.
  induction l as [| x l IH]; simpl; [tauto |].
  rewrite filter_In, IH, negb_true_iff.
  destruct (value_eq_dec x v) as [-> | Hn].
  - tauto.
  - split; [tauto |]. intros [H | H]; [contradiction |]. right.
    split; [exact H |]. apply not_true_is_false. intros E.
    apply value_eqb_eq in E. contradiction.
Qed.

Lemma insert_key_In v k l : In v (insert_key k l) <-> v = k \/ In v l.
Proof.
  induction l as [| h t IH]; simpl.
  - intuition.
  - destruct (value_leb k h); simpl; [intuition |]. rewrite IH. intuition.
Qed.

Lemma sort_keys_In v l : In v (sort_keys l) <-> In v l.
Proof.
  induction l as [| x l IH]; simpl; [tauto |].
  rewrite insert_key_In, IH. intuition.
Qed.

(** The groups of [groupby] are the non-null cells of the key column. *)
Lemma group_keys_In v keys :
  In v (group_keys keys) <-> In v keys /\ v <> NA.
Proof.
  unfold group_keys. rewrite sort_keys_In, unique_In, filter_In, notna_iff.
  tauto.
Qed.

(* ================================================================== *)
(** * What [filter_and_group] does to the frame *)

Lemma has_col_get df c :
  has_col df c = match get_col df c with Some _ => true | None => false end.
Proof.
  destruct (get_col df c) as [s |] eqn:E.
  - apply has_col_get_col. eauto.
  - apply not_true_is_false. intros H. apply has_col_get_col in H.
    destruct H as [s Hs]. congruence.
Qed.

Lemma get_col_app df c s c' :
  get_col (df ++ [(c, s)]) c'
  = match get_col df c' with
    | Some x => Some x
    | None => if String.eqb c c' then Some s else None
    end.
Proof.
  induction df as [| [n x] df IH]; simpl; [reflexivity |].
  now destruct (String.eqb n c').
Qed.

Lemma get_col_assign_other df c s c' :
  c <> c' -> get_col (assign df c s) c' = get_col df c'.
Proof.
  intros Hn. unfold assign. destruct (has_col df c).
  - rewrite update_col_apply_to, get_col_apply_to.
    replace (mem c' [c]) with false; [now destruct (get_col df c') |].
    symmetry. apply not_true_is_false. intros H. apply mem_In in H.
    destruct H as [H | []]. congruence.
  - rewrite get_col_app. apply String.eqb_neq in Hn. rewrite Hn.
    now destruct (get_col df c').
Qed.

Lemma get_col_assign_same df c s : get_col (assign df c s) c = Some s.
Proof.
  unfold assign. rewrite (has_col_get df c).
  destruct (get_col df c) as [x |] eqn:E.
  - rewrite update_col_apply_to, get_col_apply_to, E. simpl.
    now rewrite String.eqb_refl.
  - rewrite get_col_app, E. now rewrite String.eqb_refl.
Qed.








(** When [filter_and_group] completes, the frame it leaves is
    [with_year df], and the artifacts are computed from that frame. *)
Lemma filter_and_group_frame df df' arts :
  filter_and_group df = Ok (df', arts) ->
  df' = with_year df
  /\ collisions_by_borough arts
     = (if has_col df' BOROUGH
        then Some (sort_values_desc (groupby_size (col_values df' BOROUGH)))
        else None)
  /\ pivot_year_borough arts
     = (if has_col df' YEAR && has_col df' BOROUGH
           && has_col df' UNIQUE_KEY_COL
        then Some (pivot_table (col_values df' YEAR) (col_values df' BOROUGH)
                     (col_values df' UNIQUE_KEY_COL))
        else None).
Proof.
  unfold filter_and_group, with_year, getitem. rewrite (has_col_get df CRASH_DATE).
  destruct (get_col df CRASH_DATE) as [s |]; cbn [bind].
  - unfold total. destruct (dt_year s) as [y |]; cbn [bind]; [| discriminate].
    intros H. inversion H. subst. cbn. auto.
  - intros H. inversion H. subst. cbn. auto.
Qed.

Lemma get_col_with_year df c :
  c <> YEAR -> get_col (with_year df) c = get_col df c.
Proof.
  intros H. unfold with_year. destruct (get_col df CRASH_DATE); [| reflexivity].
  apply get_col_assign_other. congruence.
Qed.

Lemma has_col_with_year df c :
  c <> YEAR -> has_col (with_year df) c = has_col df c.
Proof. intros H. now rewrite !has_col_get, get_col_with_year. Qed.

Lemma col_values_with_year df c :
  c <> YEAR -> col_values (with_year df) c = col_values df c.
Proof. intros H. unfold col_values. now rewrite get_col_with_year. Qed.



(* ================================================================== *)
(** * The borough with most crashes *)



(* ================================================================== *)
(** * Steps 5 and 6 and the frame handed to the export *)





(* ================================================================== *)
(** * The pivot table *)

Lemma index_of_In v l : In v l -> exists i, index_of v l = Some i.
Proof.
  induction l as [| h t IH]; simpl; [intros [] |].
  destruct (value_eqb h v) eqn:E; [eauto |].
  intros [-> | H]; [rewrite value_eqb_refl in E; discriminate |].
  destruct (IH H) as [i ->]. simpl. eauto.
Qed.

Lemma index_of_nth_map {B} (F : value -> B) (d : B) v l : forall i,
  index_of v l = Some i -> nth i (map F l) d = F v.
Proof.
  induction l as [| h t IH]; simpl; intros i; [discriminate |].
  destruct (value_eqb h v) eqn:E.
  - intros H. inversion H. apply value_eqb_eq in E. now subst.
  - destruct (index_of v t) as [j |]; simpl; [| discriminate].
    intros H. inversion H. now apply IH.
Qed.

Lemma group_rows_In rows y b r :
  In r (group_rows rows y b) <-> In r rows /\ fst r = y /\ fst (snd r) = b.
Proof.
  unfold group_rows. rewrite filter_In, andb_true_iff, !value_eqb_eq. tauto.
Qed.

(** A cell of the pivot holds the aggregate of its group of rows. *)
Lemma pivot_cell_spec index columns values y b :
  y <> NA -> b <> NA ->
  pivot_cell (pivot_table index columns values) y b
  = agg_count (group_rows (combine index (combine columns values)) y b).
Proof.
  intros Hy Hb. unfold pivot_cell, pivot_table. cbn [p_index p_columns p_data].
  set (rows := combine index (combine columns values)).
  set (labelled := filter _ rows).
  destruct (group_rows rows y b) as [| r g] eqn:Eg.
  - (* no row in the group: NaN, or no such label *)
    destruct (index_of y _) as [i |] eqn:Ei; [| reflexivity].
    destruct (index_of b _) as [j |] eqn:Ej; [| reflexivity].
    rewrite (index_of_nth_map _ [] _ _ _ Ei), (index_of_nth_map _ None _ _ _ Ej).
    fold rows. now rewrite Eg.
  - assert (Hr : In r (group_rows rows y b)) by (rewrite Eg; now left).
    apply group_rows_In in Hr. destruct Hr as (Hin & Hfy & Hfb).
    assert (Hl : In r labelled).
    { unfold labelled. apply filter_In. split; [exact Hin |].
      rewrite Hfy, Hfb. apply andb_true_iff. split; now apply notna_iff. }
    assert (Hiy : In y (group_keys (map fst labelled))).
    { apply group_keys_In. split; [| exact Hy].
      rewrite <- Hfy. now apply in_map. }
    assert (Hib : In b (group_keys (map (fun r => fst (snd r)) labelled))).
    { apply group_keys_In. split; [| exact Hb].
      rewrite <- Hfb. now apply (in_map (fun r => fst (snd r))). }
    destruct (index_of_In _ _ Hiy) as [i Ei].
    destruct (index_of_In _ _ Hib) as [j Ej].
    rewrite Ei, Ej.
    rewrite (index_of_nth_map _ [] _ _ _ Ei), (index_of_nth_map _ None _ _ _ Ej).
    fold rows. now rewrite Eg.
Qed.






(* ================================================================== *)
(** * The export stage *)

Section ExportStage.

Variable parse_datetime : value -> option Timestamp.
Variable strptime_HM : value -> option Timestamp.
Variable parse_number : string -> option Q.
Variable py_str : value -> string.
Variable read_csv : string -> result DataFrame.
Variable to_json : DataFrame -> Path -> result unit.
Variable to_parquet : DataFrame -> Path -> result unit.

Local Abbreviation run_main :=
  (main parse_datetime strptime_HM parse_number py_str
     read_csv to_json to_parquet).

(** C6.  Let the run reach the export with the frame [df_clean], and let
    the two JSON writes succeed.  Then, whatever the Parquet writer does
    on either call, [main] returns normally (exit status 0), both JSON
    files are written, and each Parquet call that raised left a warning
    that names its file. *)
Theorem C6_parquet_failure_is_survived
  (input_csv outdir : string) (df_raw df_clean : DataFrame) :
  snd (wrangle parse_datetime strptime_HM parse_number py_str read_csv
         input_csv outdir) = Ok df_clean ->
  read_csv input_csv = Ok df_raw ->
  to_json df_raw (joinpath outdir "collisions_raw.json") = Ok tt ->
  to_json df_clean (joinpath outdir "collisions_clean.json") = Ok tt ->
  snd (run_main input_csv outdir) = Ok tt
  /\ exit_code (run_main input_csv outdir) = 0%Z
  /\ In (JsonWritten (joinpath outdir "collisions_raw.json") df_raw)
       (fst (run_main input_csv outdir))
  /\ In (JsonWritten (joinpath outdir "collisions_clean.json") df_clean)
       (fst (run_main input_csv outdir))
  /\ (forall e,
        to_parquet df_raw (joinpath outdir "collisions_raw.parquet")
        = Raise e ->
        In (ParquetSkipped "collisions_raw.parquet" e)
          (fst (run_main input_csv outdir)))
  /\ (forall e,
        to_parquet df_clean (joinpath outdir "collisions_clean.parquet")
        = Raise e ->
        In (ParquetSkipped "collisions_clean.parquet" e)
          (fst (run_main input_csv outdir))).
Proof.
  intros Hw Hread Hraw Hclean. unfold main, exit_code.
  destruct (wrangle _ _ _ _ _ input_csv outdir) as [log0 r].
  cbn [snd] in Hw. subst r. cbn [io_bind].
  unfold export_raw_and_clean, write_json, safe_to_parquet, lift, emit.
  rewrite Hread. cbn [io_bind]. rewrite Hraw. cbn [io_bind].
  destruct (to_parquet df_raw _) as [u1 | e1]; cbn [io_bind];
    rewrite Hclean; cbn [io_bind];
    destruct (to_parquet df_clean _) as [u2 | e2];
    cbn [io_bind fst snd app];
    (split; [reflexivity |]); (split; [reflexivity |]);
    (split; [apply in_or_app; right; simpl; tauto |]);
    (split; [apply in_or_app; right; simpl; tauto |]);
    split; intros e He; try discriminate; inversion He; subst;
    apply in_or_app; right; simpl; tauto.
Qed.

End ExportStage.

(** C6 on the scenario, with a Parquet writer that always raises. *)
Lemma C6_witness :
  snd (main sample_parse_datetime sample_strptime_HM sample_parse_number
         sample_py_str (fun _ => Ok scenario) (fun _ _ => Ok tt)
         broken_parquet "crashes.csv" "outputs") = Ok tt
  /\ exit_code
       (main sample_parse_datetime sample_strptime_HM sample_parse_number
          sample_py_str (fun _ => Ok scenario) (fun _ _ => Ok tt)
          broken_parquet "crashes.csv" "outputs") = 0%Z
  /\ In (JsonWritten (joinpath "outputs" "collisions_raw.json") scenario)
       (fst (main sample_parse_datetime sample_strptime_HM sample_parse_number
               sample_py_str (fun _ => Ok scenario) (fun _ _ => Ok tt)
               broken_parquet "crashes.csv" "outputs"))
  /\ In (JsonWritten (joinpath "outputs" "collisions_clean.json")
           scenario_exported)
       (fst (main sample_parse_datetime sample_strptime_HM sample_parse_number
               sample_py_str (fun _ => Ok scenario) (fun _ _ => Ok tt)
               broken_parquet "crashes.csv" "outputs"))
  /\ (forall e,
        broken_parquet scenario (joinpath "outputs" "collisions_raw.parquet")
        = Raise e ->
        In (ParquetSkipped "collisions_raw.parquet" e)
          (fst (main sample_parse_datetime sample_strptime_HM
                  sample_parse_number sample_py_str (fun _ => Ok scenario)
                  (fun _ _ => Ok tt) broken_parquet "crashes.csv" "outputs")))
  /\ (forall e,
        broken_parquet scenario_exported
          (joinpath "outputs" "collisions_clean.parquet") = Raise e ->
        In (ParquetSkipped "collisions_clean.parquet" e)
          (fst (main sample_parse_datetime sample_strptime_HM
                  sample_parse_number sample_py_str (fun _ => Ok scenario)
                  (fun _ _ => Ok tt) broken_parquet "crashes.csv" "outputs"))).
Proof.
  apply (C6_parquet_failure_is_survived sample_parse_datetime
           sample_strptime_HM sample_parse_number sample_py_str
           (fun _ => Ok scenario) (fun _ _ => Ok tt) broken_parquet
           "crashes.csv" "outputs" scenario scenario_exported).
  - reflexivity.
  - reflexivity.
  - reflexivity.
  - reflexivity.
Defined.

(* ================================================================== *)
(** * More on stage 2: schema, row count, fixed points *)

Lemma map_nth_seq (l : list value) :
  map (fun i => nth i l NA) (seq 0 (List.length l)) = l.
Proof.
  induction l as [| x l IH]; [reflexivity |].
  cbn [List.length seq map nth]. f_equal.
  rewrite <- seq_shift, map_map. exact IH.
Qed.

Lemma take_rows_all s :
  take_rows (seq 0 (List.length (s_values s))) s = s.
Proof. unfold take_rows. rewrite map_nth_seq. apply series_eta. Qed.

Lemma filter_all {A} (p : A -> bool) (l : list A) :
  (forall x, In x l -> p x = true) -> filter p l = l.
Proof. intros H. apply forallb_filter_id. now apply forallb_forall. Qed.

Lemma filter_length_le {A} (p : A -> bool) (l : list A) :
  List.length (filter p l) <= List.length l.
Proof.
  induction l as [| x l IH]; simpl; [lia |]. destruct (p x); simpl; lia.
Qed.

Lemma kept_rows_length df subset :
  List.length (kept_rows df subset) <= nrows df.
Proof.
  unfold kept_rows.
  rewrite <- (length_seq (nrows df) 0) at 2. apply filter_length_le.
Qed.

Lemma columns_dropna df subset : columns (dropna df subset) = columns df.
Proof.
  unfold columns, dropna. rewrite map_map. apply map_ext. now intros [n s].
Qed.

Lemma columns_located df : columns (located df) = columns df.
Proof.
  unfold located. destruct (ensure_columns_exist df LOCATION_COLS);
    [reflexivity | apply columns_dropna].
Qed.

Lemma columns_handle_missing_values df :
  columns (handle_missing_values df) = columns df.
Proof.
  rewrite handle_missing_values_shape, !columns_apply_to.
  apply columns_located.
Qed.

Lemma fillna_zero_length s :
  List.length (s_values (fillna_zero s)) = List.length (s_values s).
Proof. unfold fillna_zero, map_values. cbn [s_values]. apply length_map. Qed.

Lemma fillna_str_length t s :
  List.length (s_values (fillna_str t s)) = List.length (s_values s).
Proof. unfold fillna_str. cbn [s_values]. apply length_map. Qed.

Lemma nrows_map (g : string -> Series -> Series) df :
  (forall n s, List.length (s_values (g n s)) = List.length (s_values s)) ->
  nrows (map (fun '(n, s) => (n, g n s)) df) = nrows df.
Proof. intros H. destruct df as [| [n s] df]; [reflexivity |]. apply H. Qed.

Lemma fill_column_length n s :
  List.length (s_values (fill_column n s)) = List.length (s_values s).
Proof.
  unfold fill_column. destruct (mem n [FACTOR1]), (mem n INJURY_COLS);
    rewrite ?fillna_str_length, ?fillna_zero_length; reflexivity.
Qed.

(** Stage 2 as one pass over the columns of the surviving rows. *)
Lemma handle_missing_values_map df :
  handle_missing_values df
  = map (fun '(n, s) => (n, fill_column n s)) (located df).
Proof.
  rewrite handle_missing_values_shape. unfold apply_to. rewrite map_map.
  apply map_ext. now intros [n s].
Qed.

Lemma get_col_handle_missing_values df c :
  get_col (handle_missing_values df) c
  = option_map (fill_column c) (get_col (located df) c).
Proof. rewrite handle_missing_values_map. apply (get_col_map fill_column). Qed.

Lemma nrows_handle_missing_values df :
  nrows (handle_missing_values df) = nrows (located df).
Proof.
  rewrite handle_missing_values_map. apply nrows_map.
  exact fill_column_length.
Qed.

Lemma nrows_dropna df subset :
  nrows (dropna df subset)
  = match df with [] => 0 | _ :: _ => List.length (kept_rows df subset) end.
Proof.
  unfold dropna. destruct df as [| [n s] df]; [reflexivity |].
  cbn [map nrows take_rows s_values]. apply length_map.
Qed.

(** X1.  [handle_missing_values] keeps the column names and their order and
    never adds a row; when a location column is present, every column of
    the output has exactly one cell per row that is complete in the
    location columns. *)
Theorem X1_missing_values_schema_and_rows (df : DataFrame) :
  columns (handle_missing_values df) = columns df
  /\ nrows (handle_missing_values df) <= nrows df
  /\ (ensure_columns_exist df LOCATION_COLS <> [] ->
      forall c s,
        get_col (handle_missing_values df) c = Some s ->
        List.length (s_values s)
        = List.length (kept_rows df (ensure_columns_exist df LOCATION_COLS))).
Proof.
  split; [apply columns_handle_missing_values |]. split.
  - rewrite nrows_handle_missing_values. unfold located.
    destruct (ensure_columns_exist df LOCATION_COLS) as [| x cols];
      [lia |].
    rewrite nrows_dropna. destruct df; [simpl; lia | apply kept_rows_length].
  - intros Hloc c s. rewrite get_col_handle_missing_values.
    unfold located.
    destruct (ensure_columns_exist df LOCATION_COLS) as [| x cols];
      [congruence |].
    rewrite get_col_dropna.
    destruct (get_col df c) as [s0 |]; cbn [option_map]; [| discriminate].
    intros H. injection H as <-.
    rewrite fill_column_length.
    unfold take_rows. cbn [s_values]. apply length_map.
Qed.

Lemma mem_app c a b : mem c (a ++ b) = mem c a || mem c b.
Proof. unfold mem. apply existsb_app. Qed.

Lemma existsb_isna l : existsb isna l = negb (forallb notna l).
Proof.
  induction l as [| v l IH]; [reflexivity |]. simpl. rewrite IH.
  unfold notna. now destruct (isna v).
Qed.

Lemma fillna_zero_fixed s :
  forallb notna (s_values s) = true -> fillna_zero s = s.
Proof.
  intros H. unfold fillna_zero, map_values. rewrite map_fixed.
  - apply series_eta.
  - rewrite forallb_forall in H. apply Forall_forall. intros v Hv.
    specialize (H _ Hv). now destruct v.
Qed.

Lemma fillna_str_fixed t s :
  forallb notna (s_values s) = true -> fillna_str t s = s.
Proof.
  intros H. unfold fillna_str. rewrite existsb_isna, H. cbn [negb].
  rewrite map_fixed.
  - apply series_eta.
  - rewrite forallb_forall in H. apply Forall_forall. intros v Hv.
    specialize (H _ Hv). now destruct v.
Qed.

Lemma fillna_zero_complete s : forallb notna (s_values (fillna_zero s)) = true.
Proof.
  apply forallb_forall. intros v Hv.
  pose proof (fillna_zero_notna s) as H. rewrite Forall_forall in H.
  apply notna_iff. now apply H.
Qed.

Lemma fillna_str_complete t s : forallb notna (s_values (fillna_str t s)) = true.
Proof.
  unfold fillna_str. cbn [s_values]. rewrite forallb_map.
  apply forallb_forall. intros v _. now destruct v.
Qed.

Lemma fill_column_fixed n s :
  (mem n (INJURY_COLS ++ [FACTOR1]) = true ->
   forallb notna (s_values s) = true) ->
  fill_column n s = s.
Proof.
  rewrite mem_app. unfold fill_column. intros H.
  destruct (mem n INJURY_COLS) eqn:I.
  - assert (E : fillna_zero s = s) by (apply fillna_zero_fixed; now apply H).
    rewrite E. destruct (mem n [FACTOR1]); [| reflexivity].
    apply fillna_str_fixed. now apply H.
  - destruct (mem n [FACTOR1]); [| reflexivity].
    apply fillna_str_fixed. now apply H.
Qed.

Lemma fill_column_complete n s :
  mem n (INJURY_COLS ++ [FACTOR1]) = true ->
  forallb notna (s_values (fill_column n s)) = true.
Proof.
  rewrite mem_app. unfold fill_column.
  destruct (mem n [FACTOR1]); [intros _; apply fillna_str_complete |].
  destruct (mem n INJURY_COLS); [intros _; apply fillna_zero_complete |].
  discriminate.
Qed.

Lemma fill_column_idem n s : fill_column n (fill_column n s) = fill_column n s.
Proof.
  apply fill_column_fixed. apply fill_column_complete.
Qed.

(** The location filter leaves a frame alone when the frame is rectangular
    and the location cells of its rows are all there. *)
Lemma located_fixed df :
  (ensure_columns_exist df LOCATION_COLS <> [] -> rectangular df = true) ->
  (forall c i, In c (ensure_columns_exist df LOCATION_COLS) ->
               i < nrows df -> nth i (col_values df c) NA <> NA) ->
  located df = df.
Proof.
  intros Hrect Hcomplete. unfold located.
  destruct (ensure_columns_exist df LOCATION_COLS) as [| x cols] eqn:E;
    [reflexivity |].
  assert (Hk : kept_rows df (x :: cols) = seq 0 (nrows df)).
  { unfold kept_rows. apply filter_all. intros i Hi. apply in_seq in Hi.
    unfold row_complete. apply forallb_forall. intros c Hc.
    apply notna_iff. apply Hcomplete; [exact Hc | lia]. }
  unfold dropna. rewrite Hk. rewrite <- (map_id df) at 2.
  apply map_ext_in. intros [n s] Hin. f_equal.
  specialize (Hrect ltac:(discriminate)). unfold rectangular in Hrect.
  rewrite forallb_forall in Hrect. specialize (Hrect _ Hin).
  cbn [snd] in Hrect. apply Nat.eqb_eq in Hrect. rewrite <- Hrect.
  apply take_rows_all.
Qed.

(** X2.  A rectangular frame with no null in its location, injury and
    first-factor columns goes through [handle_missing_values] unchanged: no
    row is dropped and no cell is rewritten. *)
Theorem X2_complete_frame_unchanged (df : DataFrame) :
  rectangular df = true ->
  complete_in MISSING_VALUE_COLS df = true ->
  handle_missing_values df = df.
Proof.
  intros Hrect Hc. unfold complete_in in Hc. rewrite forallb_forall in Hc.
  rewrite handle_missing_values_map, located_fixed.
  - rewrite <- (map_id df) at 2. apply map_ext_in. intros [n s] Hin. f_equal.
    apply fill_column_fixed. intros Hm. specialize (Hc _ Hin).
    cbn [fst snd] in Hc. unfold MISSING_VALUE_COLS in Hc.
    rewrite mem_app, Hm, orb_true_r in Hc. exact Hc.
  - intros _. exact Hrect.
  - intros c i Hc' Hi. unfold ensure_columns_exist in Hc'.
    apply filter_In in Hc'. destruct Hc' as [Hloc Hhas].
    apply has_col_get_col in Hhas. destruct Hhas as [s Hs].
    unfold col_values. rewrite Hs.
    pose proof (get_col_In _ _ _ Hs) as Hin. specialize (Hc _ Hin).
    cbn [fst snd] in Hc. unfold MISSING_VALUE_COLS in Hc.
    rewrite mem_app, (proj2 (mem_In c LOCATION_COLS) Hloc) in Hc.
    cbn [negb orb] in Hc. rewrite forallb_forall in Hc.
    unfold rectangular in Hrect. rewrite forallb_forall in Hrect.
    specialize (Hrect _ Hin). cbn [snd] in Hrect. apply Nat.eqb_eq in Hrect.
    apply notna_iff. apply Hc. apply nth_In. lia.
Qed.

Lemma ensure_columns_same a b cols :
  columns a = columns b ->
  ensure_columns_exist a cols = ensure_columns_exist b cols.
Proof.
  intros H. unfold ensure_columns_exist, has_col. now rewrite H.
Qed.

Lemma handle_missing_values_rectangular df :
  ensure_columns_exist df LOCATION_COLS <> [] ->
  rectangular (handle_missing_values df) = true.
Proof.
  intros Hloc. unfold rectangular.
  rewrite nrows_handle_missing_values, handle_missing_values_map.
  unfold located.
  destruct (ensure_columns_exist df LOCATION_COLS) as [| x cols] eqn:E;
    [congruence |].
  rewrite nrows_dropna. unfold dropna. rewrite map_map, forallb_map.
  apply forallb_forall. intros [n s] Hin. cbn [snd].
  rewrite fill_column_length. unfold take_rows. cbn [s_values].
  rewrite length_map. destruct df; [destruct Hin |]. apply Nat.eqb_refl.
Qed.

Lemma fill_column_location c s : In c LOCATION_COLS -> fill_column c s = s.
Proof.
  intros H. unfold fill_column.
  rewrite (disjoint_mem LOCATION_COLS INJURY_COLS c eq_refl H),
    (disjoint_mem LOCATION_COLS [FACTOR1] c eq_refl H).
  reflexivity.
Qed.

(** X3.  [handle_missing_values] is idempotent: a second pass drops no
    further row and rewrites no cell. *)
Theorem X3_missing_values_idempotent (df : DataFrame) :
  handle_missing_values (handle_missing_values df) = handle_missing_values df.
Proof.
  set (X := handle_missing_values df).
  assert (Hcols : ensure_columns_exist X LOCATION_COLS
                  = ensure_columns_exist df LOCATION_COLS)
    by (apply ensure_columns_same, columns_handle_missing_values).
  assert (Hloc : located X = X).
  { apply located_fixed; rewrite Hcols.
    - apply handle_missing_values_rectangular.
    - intros c i Hc Hi.
      assert (Hin : In c LOCATION_COLS /\ has_col df c = true)
        by (unfold ensure_columns_exist in Hc; now apply filter_In in Hc).
      destruct Hin as [Hl Hhas].
      apply has_col_get_col in Hhas. destruct Hhas as [s0 Hs0].
      unfold X in Hi. rewrite nrows_handle_missing_values in Hi.
      unfold col_values, X. rewrite get_col_handle_missing_values.
      unfold located in *.
      destruct (ensure_columns_exist df LOCATION_COLS) as [| x cols] eqn:E;
        [destruct Hc |].
      rewrite nrows_dropna in Hi.
      assert (Hi' : i < List.length (kept_rows df (x :: cols)))
        by (destruct df; [simpl in Hi; lia | exact Hi]).
      rewrite get_col_dropna, Hs0. cbn [option_map].
      rewrite (fill_column_location c _ Hl). unfold take_rows.
      cbn [s_values].
      rewrite (nth_indep _ NA (nth 0 (s_values s0) NA))
        by (rewrite length_map; exact Hi').
      rewrite (map_nth (fun j => nth j (s_values s0) NA)).
      pose proof (kept_rows_complete df (x :: cols) c
                    (nth i (kept_rows df (x :: cols)) 0)
                    (nth_In _ _ Hi') Hc) as Hn.
      unfold col_values in Hn. now rewrite Hs0 in Hn. }
  rewrite (handle_missing_values_map X), Hloc. unfold X.
  rewrite handle_missing_values_map, map_map. apply map_ext.
  intros [n s]. now rewrite fill_column_idem.
Qed.

(* ================================================================== *)
(** * More on stage 3: which exception, which dtypes *)

Lemma map_result_raise {A B} (f : A -> result B) l e :
  map_result f l = Raise e -> exists x, In x l /\ f x = Raise e.
Proof.
  induction l as [| x l IH]; cbn [map_result]; [discriminate |].
  destruct (f x) as [y | e'] eqn:E; cbn [bind].
  - destruct (map_result f l) as [ys | e'] eqn:El; cbn [bind];
      [discriminate |].
    intros H. injection H as ->. destruct (IH eq_refl) as (z & Hz & Hf).
    exists z. split; [now right | exact Hf].
  - intros H. injection H as ->. exists x. split; [now left | exact E].
Qed.


Lemma update_col_e_raise c f df e :
  update_col_e c f df = Raise e -> exists s, f s = Raise e.
Proof.
  unfold update_col_e. intros H. apply map_result_raise in H.
  destruct H as ([n s] & _ & H). destruct (String.eqb n c); [| discriminate].
  exists s. destruct (f s); cbn [bind] in H; [discriminate | congruence].
Qed.



Section CorrectTypesMore.

Variable parse_datetime : value -> option Timestamp.
Variable strptime_HM : value -> option Timestamp.
Variable parse_number : string -> option Q.

Local Abbreviation correct :=
  (correct_types parse_datetime strptime_HM parse_number).
Local Abbreviation coerce :=
  (fun s => astype_Int64 (to_numeric parse_number s)).
Local Abbreviation time_of :=
  (fun s => dt_time (to_datetime strptime_HM s)).







End CorrectTypesMore.

(* ================================================================== *)
(** * More on stage 4: errors, frame, output invariants *)

Section CleanTextMore.

Variable py_str : value -> string.

Local Abbreviation clean := (clean_text py_str).
Local Abbreviation trim := (trim_text py_str).

Lemma trim_length s :
  List.length (s_values (trim s)) = List.length (s_values s).
Proof.
  unfold trim_text. destruct (is_string_dtype s || is_category s);
    [| reflexivity].
  unfold str_method, astype_string. cbn [s_values]. now rewrite !length_map.
Qed.

Lemma total_str_title_length s :
  List.length (s_values (total str_title s)) = List.length (s_values s).
Proof.
  unfold total, str_title. destruct (str_accessor_ok s); [| reflexivity].
  unfold str_method. cbn [s_values]. apply length_map.
Qed.

Lemma clean_series_length c s :
  List.length (s_values (clean_series py_str c s)) = List.length (s_values s).
Proof.
  unfold clean_series. cbv zeta.
  destruct (mem c FACTOR_COLS);
    [rewrite replace_with_na_values, length_map |];
    (destruct (mem c [BOROUGH]); [rewrite total_str_title_length |]);
    (destruct (mem c TEXT_COLS); [apply trim_length | reflexivity]).
Qed.

Lemma clean_series_other c s :
  mem c TEXT_COLS = false -> clean_series py_str c s = s.
Proof.
  intros H. unfold clean_series. rewrite H.
  destruct (mem c [BOROUGH]) eqn:B;
    [destruct (borough_in_text c B); congruence |].
  destruct (mem c FACTOR_COLS) eqn:F;
    [destruct (factor_in_text c F); congruence | reflexivity].
Qed.

(** X6.  [clean_text] raises exactly when the frame has a borough column
    that, once trimmed, does not offer the [.str] accessor (a numeric or
    datetime column, or an [object] column of numbers only); the exception
    is then an [AttributeError].  No other column can make it raise. *)
Theorem X6_clean_text_raises_only_on_borough (df : DataFrame) :
  ((exists e, clean df = Raise e)
   <-> exists s, In (BOROUGH, s) df /\ str_accessor_ok (trim s) = false)
  /\ (forall e, clean df = Raise e -> exists msg, e = AttributeError msg).
Proof.
  split.
  - pose proof (clean_text_is_ok py_str df) as Hok. split.
    + intros [e He]. rewrite He in Hok. cbn [is_ok] in Hok.
      symmetry in Hok. apply not_true_iff_false in Hok.
      destruct (existsb (fun col => negb (borough_ok py_str col)) df) eqn:Ex.
      * apply existsb_exists in Ex. destruct Ex as ([n s] & Hin & Hb).
        apply negb_true_iff in Hb. unfold borough_ok in Hb.
        cbn [fst snd] in Hb. apply orb_false_iff in Hb.
        destruct Hb as [Hn Hs]. apply negb_false_iff in Hn.
        apply mem_In in Hn. destruct Hn as [<- | []]. eauto.
      * exfalso. apply Hok. apply forallb_forall. intros col Hin.
        apply not_false_iff_true. intros Hb.
        assert (existsb (fun col => negb (borough_ok py_str col)) df = true).
        { apply existsb_exists. exists col. split; [exact Hin |].
          now rewrite Hb. }
        congruence.
    + intros (s & Hin & Hs).
      destruct (clean df) as [out | e]; [| eauto]. exfalso.
      cbn [is_ok] in Hok. symmetry in Hok. rewrite forallb_forall in Hok.
      specialize (Hok _ Hin). unfold borough_ok in Hok. cbn [fst snd] in Hok.
      rewrite Hs in Hok. discriminate.
  - intros e. rewrite clean_text_unfold.
    destruct (update_col_e BOROUGH str_title _) as [d2 | e2] eqn:E;
      cbn [bind]; [discriminate |].
    intros H. injection H as ->.
    apply update_col_e_raise in E. destruct E as [s Hs].
    unfold str_title in Hs. destruct (str_accessor_ok s); [discriminate |].
    injection Hs as <-. eauto.
Qed.

(** X7.  When [clean_text] completes it has kept the columns, their order
    and the number of cells of each, and it has not touched any column
    outside the text columns. *)
Theorem X7_clean_text_frame (df out : DataFrame) :
  clean df = Ok out ->
  columns out = columns df
  /\ (forall c, ~ In c TEXT_COLS -> get_col out c = get_col df c)
  /\ (forall c s0, get_col df c = Some s0 ->
        exists s, get_col out c = Some s
                  /\ List.length (s_values s) = List.length (s_values s0)).
Proof.
  intros H. apply clean_text_shape in H. subst out. split; [| split].
  - unfold columns. rewrite map_map. apply map_ext. now intros [n s].
  - intros c Hc. rewrite (get_col_map (clean_series py_str)).
    destruct (get_col df c) as [s |]; [| reflexivity]. cbn [option_map].
    rewrite clean_series_other; [reflexivity |].
    apply not_true_is_false. intros M. apply mem_In in M. contradiction.
  - intros c s0 Hs0. rewrite (get_col_map (clean_series py_str)), Hs0.
    cbn [option_map]. eexists. split; [reflexivity |].
    apply clean_series_length.
Qed.



End CleanTextMore.

(* ================================================================== *)
(** * Stages 2 to 6 in sequence: what can still raise *)

Lemma dt_year_is_ok s : is_ok (dt_year s) = is_datetime s.
Proof. unfold dt_year, is_datetime. now destruct (s_dtype s). Qed.

Lemma filter_and_group_is_ok df :
  is_ok (filter_and_group df)
  = match get_col df CRASH_DATE with
    | Some s => is_datetime s
    | None => true
    end.
Proof.
  unfold filter_and_group, getitem. rewrite (has_col_get df CRASH_DATE).
  destruct (get_col df CRASH_DATE) as [s |]; cbn [bind]; [| reflexivity].
  rewrite <- dt_year_is_ok. now destruct (dt_year s).
Qed.


(** [statistical_summaries] completes unless an injury column is present
    while the persons-injured column is not. *)
Lemma statistical_summaries_is_ok df :
  is_ok (statistical_summaries df)
  = match ensure_columns_exist df INJURY_COLS with
    | [] => true
    | _ :: _ => has_col df PERSONS_INJURED
    end.
Proof.
  unfold statistical_summaries, getitem.
  rewrite (has_col_get df PERSONS_INJURED).
  destruct (ensure_columns_exist df INJURY_COLS); cbn [bind];
    [reflexivity |].
  now destruct (get_col df PERSONS_INJURED).
Qed.


Section PipelineMore.

Variable parse_datetime : value -> option Timestamp.
Variable strptime_HM : value -> option Timestamp.
Variable parse_number : string -> option Q.
Variable py_str : value -> string.

Local Abbreviation correct :=
  (correct_types parse_datetime strptime_HM parse_number).
Local Abbreviation pipeline :=
  (clean_pipeline parse_datetime strptime_HM parse_number py_str).





End PipelineMore.

(* ================================================================== *)
(** * More on stage 5: the year column *)

(** The artifacts of [filter_and_group], read off the frame it leaves. *)
Lemma filter_and_group_artifacts df df' arts :
  filter_and_group df = Ok (df', arts) ->
  manhattan_rows arts
  = (if has_col df BOROUGH
     then Some (count (VStr "Manhattan") (col_values df BOROUGH))
     else None)
  /\ collisions_by_year arts
     = (if has_col df' YEAR
        then Some (groupby_size (col_values df' YEAR))
        else None)
  /\ injury_correlation arts
     = match ensure_columns_exist df' INJURY_COLS with
       | [] => None
       | _ :: _ => Some (select df' (ensure_columns_exist df' INJURY_COLS))
       end.
Proof.
  unfold filter_and_group, getitem. rewrite (has_col_get df CRASH_DATE).
  destruct (get_col df CRASH_DATE) as [s |]; cbn [bind].
  - destruct (dt_year s) as [y |]; cbn [bind]; [| discriminate].
    intros H. inversion H. subst. cbn. auto.
  - intros H. inversion H. subst. cbn. auto.
Qed.

Lemma columns_assign df c s :
  columns (assign df c s)
  = if has_col df c then columns df else columns df ++ [c].
Proof.
  unfold assign. destruct (has_col df c).
  - rewrite update_col_apply_to. apply columns_apply_to.
  - unfold columns. now rewrite map_app.
Qed.

(** X13.  On a frame with a crash-date column, [filter_and_group] leaves a
    column [YEAR]: overwritten in place when the frame already had one,
    appended after the last column otherwise.  Its cells are the years of
    the dates, null where the date is missing; the years are floats as soon
    as one date is missing and integers otherwise.  The counts by year are
    taken from that column. *)
Theorem X13_year_column
  (df df' : DataFrame) (arts : GroupArtifacts) (d : Series) :
  filter_and_group df = Ok (df', arts) ->
  get_col df CRASH_DATE = Some d ->
  columns df' = (if has_col df YEAR then columns df else columns df ++ [YEAR])
  /\ exists y,
       get_col df' YEAR = Some y
       /\ Forall2
            (fun dv yv =>
               match dv with
               | VDate t =>
                   yv = if existsb isna (s_values d)
                        then VFloat (inject_Z (ts_year t))
                        else VInt (ts_year t)
               | _ => yv = NA
               end) (s_values d) (s_values y)
       /\ collisions_by_year arts = Some (groupby_size (s_values y)).
Proof.
  intros Hfg Hd.
  destruct (filter_and_group_artifacts _ _ _ Hfg) as (_ & Hy & _).
  pose proof (filter_and_group_is_ok df) as Hok. rewrite Hfg, Hd in Hok.
  cbn [is_ok] in Hok. symmetry in Hok.
  destruct (filter_and_group_frame _ _ _ Hfg) as (-> & _ & _).
  unfold with_year in *. rewrite Hd in *.
  split; [apply columns_assign |].
  exists (total dt_year d). split; [apply get_col_assign_same |].
  rewrite has_col_get, get_col_assign_same in Hy.
  unfold col_values in Hy. rewrite get_col_assign_same in Hy.
  split; [| exact Hy].
  unfold total, dt_year. unfold is_datetime in Hok.
  destruct (s_dtype d); try discriminate. cbn [s_values].
  apply Forall2_map_same. intros v. now destruct v.
Qed.

(* ================================================================== *)
(** * Frames without the columns a stage looks for *)

Lemma ensure_none df cols :
  (forall c, In c cols -> has_col df c = false) ->
  ensure_columns_exist df cols = [].
Proof.
  intros H. unfold ensure_columns_exist.
  induction cols as [| x cols IH]; [reflexivity |]. cbn [filter].
  rewrite (H x) by now left. apply IH. intros c Hc. apply H. now right.
Qed.

Section SchemaTolerance.

Variable parse_datetime : value -> option Timestamp.
Variable strptime_HM : value -> option Timestamp.
Variable parse_number : string -> option Q.
Variable py_str : value -> string.

(** X14.  A frame in which none of the column names of the schema occurs
    goes through every stage untouched and without an exception: stages 2
    to 4 return it as it is, and stages 5 and 6 write nothing. *)
Theorem X14_frame_without_role_columns (df : DataFrame) :
  (forall c, In c ROLE_COLS -> has_col df c = false) ->
  handle_missing_values df = df
  /\ correct_types parse_datetime strptime_HM parse_number df = Ok df
  /\ clean_text py_str df = Ok df
  /\ filter_and_group df = Ok (df, no_group_artifacts)
  /\ statistical_summaries df = Ok no_stat_artifacts.
Proof.
  intros H.
  assert (HL : ensure_columns_exist df LOCATION_COLS = []).
  { apply ensure_none. intros c Hc. apply H. unfold ROLE_COLS.
    apply in_or_app. now left. }
  assert (HI : ensure_columns_exist df INJURY_COLS = []).
  { apply ensure_none. intros c Hc. apply H. unfold ROLE_COLS.
    apply in_or_app. right. apply in_or_app. now left. }
  assert (HT : ensure_columns_exist df TEXT_COLS = []).
  { apply ensure_none. intros c Hc. apply H. unfold ROLE_COLS.
    do 2 (apply in_or_app; right). apply in_or_app. now left. }
  assert (HD : ensure_columns_exist df DATE_COLS = []).
  { apply ensure_none. intros c Hc. apply H. unfold ROLE_COLS.
    do 3 (apply in_or_app; right). apply in_or_app. now left. }
  assert (HM : ensure_columns_exist df TIME_COLS = []).
  { apply ensure_none. intros c Hc. apply H. unfold ROLE_COLS.
    do 4 (apply in_or_app; right). apply in_or_app. now left. }
  assert (HF : ensure_columns_exist df FACTOR_COLS = []).
  { apply ensure_none. intros c Hc. apply H. unfold ROLE_COLS.
    do 2 (apply in_or_app; right). apply in_or_app. left.
    apply mem_In. apply mem_In in Hc. now destruct (factor_in_text c Hc). }
  assert (HB : has_col df BOROUGH = false).
  { apply H. unfold ROLE_COLS. do 2 (apply in_or_app; right).
    apply in_or_app. left. now left. }
  assert (H1 : has_col df FACTOR1 = false).
  { apply H. unfold ROLE_COLS. do 2 (apply in_or_app; right).
    apply in_or_app. left. right. now left. }
  assert (HC : has_col df CRASH_DATE = false).
  { apply H. unfold ROLE_COLS. do 3 (apply in_or_app; right).
    apply in_or_app. left. now left. }
  assert (HY : has_col df YEAR = false).
  { apply H. unfold ROLE_COLS. do 5 (apply in_or_app; right). now left. }
  repeat split.
  - unfold handle_missing_values. now rewrite HL, HI, H1.
  - unfold correct_types. rewrite HD. cbn [update_cols fold_left].
    rewrite HM. cbn [update_cols_e bind]. rewrite HI.
    cbn [update_cols_e bind]. now rewrite HB.
  - unfold clean_text. rewrite HT. cbn [update_cols_e bind]. rewrite HB.
    cbn [bind]. now rewrite HF.
  - unfold filter_and_group. rewrite HC. cbn [bind].
    now rewrite HB, HY, HI.
  - unfold statistical_summaries. rewrite HI. cbn [bind fst snd].
    now rewrite H1, HB.
Qed.

End SchemaTolerance.

(* ================================================================== *)
(** * More on the grouped counts *)

Lemma insert_count_perm x l : Permutation (insert_count x l) (x :: l).
Proof.
  induction l as [| h t IH]; simpl; [reflexivity |].
  destruct (snd x <=? snd h); [reflexivity |].
  rewrite IH. apply perm_swap.
Qed.

Lemma sort_ascending_perm l : Permutation (sort_ascending l) l.
Proof.
  induction l as [| x t IH]; simpl; [reflexivity |].
  rewrite insert_count_perm. now constructor.
Qed.

Lemma sort_values_desc_perm l : Permutation (sort_values_desc l) l.
Proof.
  unfold sort_values_desc.
  rewrite <- Permutation_rev, sort_ascending_perm.
  symmetry. apply Permutation_rev.
Qed.

Lemma descending_snoc l x :
  descending l -> (forall y, In y l -> snd x <= snd y) ->
  descending (l ++ [x]).
Proof.
  induction l as [| h t IH]; simpl.
  - intros _ _. split; [intros y [] | exact I].
  - intros [Hh Ht] Hx. split.
    + intros y Hy. apply in_app_or in Hy. destruct Hy as [Hy | [<- | []]].
      * now apply Hh.
      * apply Hx. now left.
    + apply IH; [exact Ht |]. intros y Hy. apply Hx. now right.
Qed.

Lemma ascending_rev l : ascending l -> descending (rev l).
Proof.
  induction l as [| x t IH]; simpl; [trivial |].
  intros [Hx Ht]. apply descending_snoc; [now apply IH |].
  intros y Hy. apply in_rev in Hy. now apply Hx.
Qed.

Lemma sort_values_desc_descending l : descending (sort_values_desc l).
Proof.
  unfold sort_values_desc. apply ascending_rev, sort_ascending_ascending.
Qed.

Lemma insert_key_perm k l : Permutation (insert_key k l) (k :: l).
Proof.
  induction l as [| h t IH]; simpl; [reflexivity |].
  destruct (value_leb k h); [reflexivity |].
  rewrite IH. apply perm_swap.
Qed.

Lemma sort_keys_perm l : Permutation (sort_keys l) l.
Proof.
  induction l as [| x t IH]; simpl; [reflexivity |].
  rewrite insert_key_perm. now constructor.
Qed.

Lemma unique_NoDup l : NoDup (unique l).
Proof.
  induction l as [| x l IH]; cbn [unique]; constructor.
  - intros H. apply filter_In in H. destruct H as [_ H].
    rewrite value_eqb_refl in H. discriminate.
  - now apply NoDup_filter.
Qed.

Lemma group_keys_NoDup keys : NoDup (group_keys keys).
Proof.
  unfold group_keys.
  apply (Permutation_NoDup (l := unique (filter notna keys))).
  - symmetry. apply sort_keys_perm.
  - apply unique_NoDup.
Qed.

Lemma list_sum_perm l l' : Permutation l l' -> list_sum l = list_sum l'.
Proof. induction 1; simpl; lia. Qed.

Lemma count_cons k x l :
  count k (x :: l) = (if value_eqb k x then 1 else 0) + count k l.
Proof. unfold count. cbn [filter]. now destruct (value_eqb k x). Qed.

Lemma count_zero k l : ~ In k l -> count k l = 0.
Proof.
  intros H. induction l as [| x l IH]; [reflexivity |].
  rewrite count_cons, IH by (intros Q; apply H; now right).
  destruct (value_eqb k x) eqn:E; [| reflexivity].
  apply value_eqb_eq in E. subst. exfalso. apply H. now left.
Qed.

Lemma count_pos k l : In k l <-> 0 < count k l.
Proof.
  split.
  - induction l as [| x l IH]; [intros [] |]. rewrite count_cons.
    intros [-> | H]; [rewrite value_eqb_refl; lia |].
    specialize (IH H). lia.
  - intros H. destruct (in_dec value_eq_dec k l) as [Hin | Hn];
      [exact Hin |]. rewrite (count_zero _ _ Hn) in H. lia.
Qed.

Lemma count_filter_notna k l :
  k <> NA -> count k (filter notna l) = count k l.
Proof.
  intros Hk. induction l as [| x l IH]; [reflexivity |].
  cbn [filter]. destruct (notna x) eqn:E.
  - now rewrite !count_cons, IH.
  - rewrite count_cons, IH. destruct x; try discriminate.
    destruct (value_eqb k NA) eqn:Q; [| reflexivity].
    apply value_eqb_eq in Q. contradiction.
Qed.

Lemma list_sum_cons a l : list_sum (a :: l) = a + list_sum l.
Proof. reflexivity. Qed.

(** Summing over distinct keys, with one key set apart. *)
Lemma list_sum_split (f : value -> nat) x U :
  NoDup U -> (~ In x U -> f x = 0) ->
  list_sum (map f U)
  = f x + list_sum (map f (filter (fun y => negb (value_eqb x y)) U)).
Proof.
  induction 1 as [| u U Hu Hnd IH]; intros Hx.
  - cbn [map filter]. rewrite Hx by tauto. reflexivity.
  - cbn [map filter]. rewrite list_sum_cons.
    destruct (value_eqb x u) eqn:E; cbn [negb].
    + apply value_eqb_eq in E. subst u.
      rewrite filter_all; [reflexivity |].
      intros y Hy. apply negb_true_iff. apply not_true_is_false.
      intros Q. apply value_eqb_eq in Q. now subst.
    + cbn [map]. rewrite list_sum_cons, IH; [lia |].
      intros Hn. apply Hx. intros [-> | Hin]; [| contradiction].
      rewrite value_eqb_refl in E. discriminate.
Qed.

(** Every cell is counted under exactly one of the distinct cells. *)
Lemma list_sum_counts l :
  list_sum (map (fun k => count k l) (unique l)) = List.length l.
Proof.
  induction l as [| x l IH]; [reflexivity |].
  cbn [unique map List.length]. rewrite list_sum_cons.
  rewrite count_cons, value_eqb_refl.
  rewrite (map_ext_in (fun k => count k (x :: l)) (fun k => count k l)).
  - rewrite <- IH.
    rewrite (list_sum_split (fun k => count k l) x (unique l));
      [lia | apply unique_NoDup |].
    intros Hn. apply count_zero. intros Hin. apply Hn. now apply unique_In.
  - intros k Hk. apply filter_In in Hk. destruct Hk as [_ Hk].
    rewrite count_cons. apply negb_true_iff in Hk.
    destruct (value_eqb k x) eqn:E; [| reflexivity].
    apply value_eqb_eq in E. subst. rewrite value_eqb_refl in Hk.
    discriminate.
Qed.

Lemma groupby_size_keys keys : map fst (groupby_size keys) = group_keys keys.
Proof.
  unfold groupby_size. rewrite map_map. cbn [fst]. apply map_id.
Qed.

Lemma groupby_size_In keys k n :
  In (k, n) (groupby_size keys)
  <-> k <> NA /\ In k keys /\ n = count k keys.
Proof.
  unfold groupby_size. rewrite in_map_iff. split.
  - intros (x & E & Hx). injection E as -> <-.
    apply group_keys_In in Hx. tauto.
  - intros (Hk & Hin & ->). exists k. split; [reflexivity |].
    apply group_keys_In. tauto.
Qed.

Lemma groupby_size_total keys :
  list_sum (map snd (groupby_size keys)) = List.length (filter notna keys).
Proof.
  unfold groupby_size. rewrite map_map. cbn [snd]. unfold group_keys.
  rewrite (list_sum_perm _ _
             (Permutation_map (fun k => count k keys)
                (sort_keys_perm (unique (filter notna keys))))).
  rewrite <- list_sum_counts. f_equal. apply map_ext_in.
  intros k Hk. symmetry. apply count_filter_notna.
  apply unique_In, filter_In in Hk. now apply notna_iff.
Qed.

(** X15.  The ranking by borough that [filter_and_group] writes lists every
    distinct non-null borough exactly once, with the number of rows that
    have it, in descending order of that number; the numbers add up to the
    number of rows that have a borough. *)
Theorem X15_borough_ranking
  (df df' : DataFrame) (arts : GroupArtifacts) :
  filter_and_group df = Ok (df', arts) ->
  has_col df BOROUGH = true ->
  exists ranking,
    collisions_by_borough arts = Some ranking
    /\ descending ranking
    /\ NoDup (map fst ranking)
    /\ (forall k n,
          In (k, n) ranking
          <-> k <> NA /\ In k (col_values df BOROUGH)
              /\ n = count k (col_values df BOROUGH))
    /\ list_sum (map snd ranking)
       = List.length (filter notna (col_values df BOROUGH)).
Proof.
  intros Hfg Hb.
  destruct (filter_and_group_frame _ _ _ Hfg) as (-> & Hrank & _).
  rewrite has_col_with_year, col_values_with_year, Hb in Hrank
    by discriminate.
  eexists. split; [exact Hrank |].
  set (keys := col_values df BOROUGH).
  pose proof (sort_values_desc_perm (groupby_size keys)) as P.
  split; [apply sort_values_desc_descending |]. split; [| split].
  - apply (Permutation_NoDup (l := map fst (groupby_size keys))).
    + symmetry. now apply Permutation_map.
    + rewrite groupby_size_keys. apply group_keys_NoDup.
  - intros k n. rewrite <- groupby_size_In. split; apply Permutation_in;
      [exact P | symmetry; exact P].
  - rewrite (list_sum_perm _ _ (Permutation_map snd P)).
    apply groupby_size_total.
Qed.

(** X16.  The number of Manhattan rows that [filter_and_group] reports
    agrees with its ranking by borough: a positive number is the count of
    the entry "Manhattan", and zero means the ranking has no such entry. *)
Theorem X16_manhattan_agrees_with_ranking
  (df df' : DataFrame) (arts : GroupArtifacts) :
  filter_and_group df = Ok (df', arts) ->
  has_col df BOROUGH = true ->
  exists m ranking,
    manhattan_rows arts = Some m
    /\ collisions_by_borough arts = Some ranking
    /\ (0 < m -> In (VStr "Manhattan", m) ranking)
    /\ (m = 0 -> forall n, ~ In (VStr "Manhattan", n) ranking).
Proof.
  intros Hfg Hb.
  destruct (filter_and_group_artifacts _ _ _ Hfg) as (Hm & _ & _).
  destruct (filter_and_group_frame _ _ _ Hfg) as (-> & Hrank & _).
  rewrite has_col_with_year, col_values_with_year, Hb in Hrank
    by discriminate.
  rewrite Hb in Hm. do 2 eexists. split; [exact Hm |].
  split; [exact Hrank |].
  set (keys := col_values df BOROUGH).
  pose proof (sort_values_desc_perm (groupby_size keys)) as P. split.
  - intros Hpos. apply (Permutation_in _ (Permutation_sym P)).
    apply groupby_size_In. split; [discriminate |].
    split; [now apply count_pos | reflexivity].
  - intros H0 n Hin. apply (Permutation_in _ P) in Hin.
    apply groupby_size_In in Hin. destruct Hin as (_ & Hin & _).
    apply count_pos in Hin. fold keys in H0. lia.
Qed.


(* ================================================================== *)
(** * More on stage 6: the most frequent contributing factors *)

Lemma firstn_incl {A} n (l : list A) x : In x (firstn n l) -> In x l.
Proof.
  revert l. induction n as [| n IH]; intros [| h t]; simpl; try tauto.
  intros [-> | H]; [now left | right; now apply IH].
Qed.

Lemma descending_firstn n l : descending l -> descending (firstn n l).
Proof.
  revert l. induction n as [| n IH]; intros [| h t]; simpl; try tauto.
  intros [Hh Ht]. split; [| now apply IH].
  intros y Hy. apply Hh. now apply firstn_incl in Hy.
Qed.

Lemma descending_cut n l :
  descending l ->
  forall x y, In x (firstn n l) -> In y (skipn n l) -> snd y <= snd x.
Proof.
  revert l. induction n as [| n IH]; intros [| h t]; simpl; try tauto.
  intros [Hh Ht] x y [<- | Hx] Hy.
  - apply Hh. rewrite <- (firstn_skipn n t). apply in_or_app. now right.
  - now apply (IH t Ht).
Qed.

Lemma value_counts_In cells k n :
  In (k, n) (value_counts cells) <-> In k cells /\ n = count k cells.
Proof.
  unfold value_counts. split.
  - intros H. apply (Permutation_in _ (sort_values_desc_perm _)) in H.
    apply in_map_iff in H. destruct H as (x & E & Hx).
    injection E as -> <-. apply (proj1 (unique_In _ _)) in Hx. now split.
  - intros [Hk ->].
    apply (Permutation_in _ (Permutation_sym (sort_values_desc_perm _))).
    apply in_map_iff. exists k.
    split; [reflexivity | exact (proj2 (unique_In _ _) Hk)].
Qed.

Lemma value_counts_length cells :
  List.length (value_counts cells) = List.length (unique cells).
Proof.
  unfold value_counts.
  rewrite (Permutation_length (sort_values_desc_perm _)). apply length_map.
Qed.

(** X18.  The table of top contributing factors that
    [statistical_summaries] writes has one entry per distinct cell of the
    first-factor column, the null cell included, up to 20 entries, each
    with its number of rows, most frequent first; a cell left out of the
    table is no more frequent than any entry of the table. *)
Theorem X18_top_contributing_factors
  (df : DataFrame) (stats : StatArtifacts) :
  statistical_summaries df = Ok stats ->
  has_col df FACTOR1 = true ->
  exists top,
    top_contributing_factors_v1 stats = Some top
    /\ List.length top
       = Nat.min 20 (List.length (unique (col_values df FACTOR1)))
    /\ descending top
    /\ (forall k n, In (k, n) top ->
          In k (col_values df FACTOR1)
          /\ n = count k (col_values df FACTOR1))
    /\ (forall k, In k (col_values df FACTOR1) ->
          In (k, count k (col_values df FACTOR1)) top
          \/ forall e, In e top -> count k (col_values df FACTOR1) <= snd e).
Proof.
  intros Hss Hf. unfold statistical_summaries in Hss.
  destruct (match ensure_columns_exist df INJURY_COLS with
            | [] => Ok (None, None)
            | _ :: _ => _
            end) as [inj |]; cbn [bind] in Hss; [| discriminate].
  rewrite Hf in Hss.
  remember (firstn 20 (value_counts (col_values df FACTOR1))) as top eqn:Et.
  inversion Hss. cbn [top_contributing_factors_v1]. subst top.
  set (cells := col_values df FACTOR1).
  eexists. split; [reflexivity |]. split; [| split; [| split]].
  - now rewrite length_firstn, value_counts_length.
  - apply descending_firstn. unfold value_counts.
    apply sort_values_desc_descending.
  - intros k n Hin. apply firstn_incl in Hin. now apply value_counts_In.
  - intros k Hk.
    assert (Hin : In (k, count k cells) (value_counts cells))
      by now apply value_counts_In.
    rewrite <- (firstn_skipn 20 (value_counts cells)) in Hin.
    apply in_app_or in Hin. destruct Hin as [Hin | Hin]; [now left |].
    right. intros e He.
    exact (descending_cut 20 _ (sort_values_desc_descending _) e
             (k, count k cells) He Hin).
Qed.

(* ================================================================== *)
(** * More on the export and on [main]: what a failure leaves behind *)

Section ExportMore.

Variable parse_datetime : value -> option Timestamp.
Variable strptime_HM : value -> option Timestamp.
Variable parse_number : string -> option Q.
Variable py_str : value -> string.
Variable read_csv : string -> result DataFrame.
Variable to_json : DataFrame -> Path -> result unit.
Variable to_parquet : DataFrame -> Path -> result unit.

Local Abbreviation export :=
  (export_raw_and_clean read_csv to_json to_parquet).
Local Abbreviation run_main :=
  (main parse_datetime strptime_HM parse_number py_str
     read_csv to_json to_parquet).

(** X19.  The JSON writes of [export_raw_and_clean] are not guarded.  When
    the raw JSON write raises, the export raises the same exception and
    has written nothing.  When the cleaned JSON write raises, the export
    raises that exception after the two raw artifacts (the Parquet one
    written or skipped) and without any cleaned artifact. *)
Theorem X19_json_failure_aborts_export
  (csv_input outdir : string) (df_raw df_clean : DataFrame) :
  read_csv csv_input = Ok df_raw ->
  (forall e,
     to_json df_raw (joinpath outdir "collisions_raw.json") = Raise e ->
     export csv_input df_clean outdir = ([], Raise e))
  /\ (to_json df_raw (joinpath outdir "collisions_raw.json") = Ok tt ->
      forall e,
        to_json df_clean (joinpath outdir "collisions_clean.json") = Raise e ->
        snd (export csv_input df_clean outdir) = Raise e
        /\ (fst (export csv_input df_clean outdir)
            = [ JsonWritten (joinpath outdir "collisions_raw.json") df_raw;
                ParquetWritten (joinpath outdir "collisions_raw.parquet")
                  df_raw ]
            \/ exists e',
                 fst (export csv_input df_clean outdir)
                 = [ JsonWritten (joinpath outdir "collisions_raw.json")
                       df_raw;
                     ParquetSkipped "collisions_raw.parquet" e' ])).
Proof.
  intros Hread. unfold export_raw_and_clean, write_json, safe_to_parquet,
    lift, emit. rewrite Hread. cbn [io_bind]. split.
  - intros e He. rewrite He. reflexivity.
  - intros Hraw e He. rewrite Hraw. cbn [io_bind].
    destruct (to_parquet df_raw _) as [u | e']; cbn [io_bind];
      rewrite He; cbn [io_bind fst snd app]; (split; [reflexivity |]);
      [left; reflexivity | right; eauto].
Qed.

(** X20.  When the input file cannot be read, [main] raises the exception
    of [read_csv] before anything is written and the process exits with
    status 1.  When it can be read, the first thing [main] writes is the
    sample of the raw table, whatever happens in the later stages. *)
Theorem X20_main_and_the_input_file (input_csv outdir : string) :
  (forall e,
     read_csv input_csv = Raise e ->
     run_main input_csv outdir = ([], Raise e)
     /\ exit_code (run_main input_csv outdir) = 1%Z)
  /\ (forall df,
        read_csv input_csv = Ok df ->
        exists rest,
          fst (run_main input_csv outdir)
          = CsvWritten (joinpath outdir "sample_head.csv") :: rest).
Proof.
  split.
  - intros e He. unfold main, wrangle, load_raw, lift, exit_code.
    rewrite He. cbn. split; reflexivity.
  - intros df Hdf. unfold main, wrangle, load_raw, lift, emit.
    rewrite Hdf. cbn [io_bind app].
    destruct (correct_types _ _ _ (handle_missing_values df)) as [d3 |];
      cbn [io_bind app fst]; [| eauto].
    destruct (clean_text py_str d3) as [d4 |]; cbn [io_bind app fst];
      [| eauto].
    destruct (filter_and_group d4) as [r |]; cbn [io_bind app fst];
      [| eauto].
    destruct (statistical_summaries (fst r)) as [a |];
      cbn [io_bind app fst]; [| eauto].
    unfold io_ret. cbn [io_bind app fst].
    destruct (export_raw_and_clean _ _ _ input_csv (fst r) outdir)
      as [l res]. cbn [fst app]. eauto.
Qed.

End ExportMore.

(* ================================================================== *)
(** * The theorems above at the sample tables *)

Lemma X2_witness : handle_missing_values complete_sample = complete_sample.
Proof.
  apply (X2_complete_frame_unchanged complete_sample).
  - reflexivity.
  - reflexivity.
Defined.


Lemma X7_witness :
  columns scenario_cleaned = columns scenario_typed
  /\ (forall c, ~ In c TEXT_COLS ->
        get_col scenario_cleaned c = get_col scenario_typed c)
  /\ (forall c s0, get_col scenario_typed c = Some s0 ->
        exists s, get_col scenario_cleaned c = Some s
                  /\ List.length (s_values s) = List.length (s_values s0)).
Proof.
  apply (X7_clean_text_frame sample_py_str scenario_typed scenario_cleaned).
  reflexivity.
Defined.



Lemma X13_witness :
  columns scenario_exported
  = (if has_col scenario_cleaned YEAR
     then columns scenario_cleaned
     else columns scenario_cleaned ++ [YEAR])
  /\ exists y,
       get_col scenario_exported YEAR = Some y
       /\ Forall2
            (fun dv yv =>
               match dv with
               | VDate t =>
                   yv = if existsb isna
                             (s_values
                                (mkSeries DDatetime64
                                   [VDate (mkTimestamp 2021 1 2 0 0);
                                    VDate (mkTimestamp 2021 1 2 0 0)]))
                        then VFloat (inject_Z (ts_year t))
                        else VInt (ts_year t)
               | _ => yv = NA
               end)
            (s_values
               (mkSeries DDatetime64
                  [VDate (mkTimestamp 2021 1 2 0 0);
                   VDate (mkTimestamp 2021 1 2 0 0)]))
            (s_values y)
       /\ collisions_by_year scenario_group_artifacts
          = Some (groupby_size (s_values y)).
Proof.
  apply (X13_year_column scenario_cleaned scenario_exported
           scenario_group_artifacts
           (mkSeries DDatetime64
              [VDate (mkTimestamp 2021 1 2 0 0);
               VDate (mkTimestamp 2021 1 2 0 0)])).
  - reflexivity.
  - reflexivity.
Defined.

Lemma X14_witness :
  handle_missing_values bare_frame = bare_frame
  /\ correct_types sample_parse_datetime sample_strptime_HM
       sample_parse_number bare_frame = Ok bare_frame
  /\ clean_text sample_py_str bare_frame = Ok bare_frame
  /\ filter_and_group bare_frame = Ok (bare_frame, no_group_artifacts)
  /\ statistical_summaries bare_frame = Ok no_stat_artifacts.
Proof.
  apply (X14_frame_without_role_columns sample_parse_datetime
           sample_strptime_HM sample_parse_number sample_py_str bare_frame).
  intros c Hc. simpl in Hc.
  repeat (destruct Hc as [<- | Hc]; [reflexivity |]). destruct Hc.
Defined.

Lemma X15_witness :
  exists ranking,
    collisions_by_borough scenario_group_artifacts = Some ranking
    /\ descending ranking
    /\ NoDup (map fst ranking)
    /\ (forall k n,
          In (k, n) ranking
          <-> k <> NA /\ In k (col_values scenario_cleaned BOROUGH)
              /\ n = count k (col_values scenario_cleaned BOROUGH))
    /\ list_sum (map snd ranking)
       = List.length (filter notna (col_values scenario_cleaned BOROUGH)).
Proof.
  apply (X15_borough_ranking scenario_cleaned scenario_exported
           scenario_group_artifacts).
  - reflexivity.
  - reflexivity.
Defined.

Lemma X16_witness :
  exists m ranking,
    manhattan_rows scenario_group_artifacts = Some m
    /\ collisions_by_borough scenario_group_artifacts = Some ranking
    /\ (0 < m -> In (VStr "Manhattan", m) ranking)
    /\ (m = 0 -> forall n, ~ In (VStr "Manhattan", n) ranking).
Proof.
  apply (X16_manhattan_agrees_with_ranking scenario_cleaned
           scenario_exported scenario_group_artifacts).
  - reflexivity.
  - reflexivity.
Defined.


Lemma X18_witness :
  exists top,
    top_contributing_factors_v1 scenario_stat_artifacts = Some top
    /\ List.length top
       = Nat.min 20
           (List.length (unique (col_values scenario_cleaned FACTOR1)))
    /\ descending top
    /\ (forall k n, In (k, n) top ->
          In k (col_values scenario_cleaned FACTOR1)
          /\ n = count k (col_values scenario_cleaned FACTOR1))
    /\ (forall k, In k (col_values scenario_cleaned FACTOR1) ->
          In (k, count k (col_values scenario_cleaned FACTOR1)) top
          \/ forall e, In e top ->
               count k (col_values scenario_cleaned FACTOR1) <= snd e).
Proof.
  apply (X18_top_contributing_factors scenario_cleaned
           scenario_stat_artifacts).
  - reflexivity.
  - reflexivity.
Defined.

Lemma X19_witness :
  (forall e,
     json_fails_on_clean scenario (joinpath "outputs" "collisions_raw.json")
     = Raise e ->
     export_raw_and_clean (fun _ => Ok scenario) json_fails_on_clean
       broken_parquet "crashes.csv" scenario_exported "outputs"
     = ([], Raise e))
  /\ (json_fails_on_clean scenario (joinpath "outputs" "collisions_raw.json")
      = Ok tt ->
      forall e,
        json_fails_on_clean scenario_exported
          (joinpath "outputs" "collisions_clean.json") = Raise e ->
        snd (export_raw_and_clean (fun _ => Ok scenario) json_fails_on_clean
               broken_parquet "crashes.csv" scenario_exported "outputs")
        = Raise e
        /\ (fst (export_raw_and_clean (fun _ => Ok scenario)
                   json_fails_on_clean broken_parquet "crashes.csv"
                   scenario_exported "outputs")
            = [ JsonWritten (joinpath "outputs" "collisions_raw.json")
                  scenario;
                ParquetWritten (joinpath "outputs" "collisions_raw.parquet")
                  scenario ]
            \/ exists e',
                 fst (export_raw_and_clean (fun _ => Ok scenario)
                        json_fails_on_clean broken_parquet "crashes.csv"
                        scenario_exported "outputs")
                 = [ JsonWritten (joinpath "outputs" "collisions_raw.json")
                       scenario;
                     ParquetSkipped "collisions_raw.parquet" e' ])).
Proof.
  apply (X19_json_failure_aborts_export (fun _ => Ok scenario)
           json_fails_on_clean broken_parquet "crashes.csv" "outputs"
           scenario scenario_exported).
  reflexivity.
Defined.

(* ================================================================== *)
(** * More on stage 5: counts by year, labels of the pivot *)

Lemma dt_year_values d y :
  dt_year d = Ok y ->
  List.length (filter notna (s_values y))
  = List.length (filter is_date (s_values d)).
Proof.
  unfold dt_year. destruct (s_dtype d); try discriminate.
  intros H. injection H as <-. cbn [s_values].
  generalize (existsb isna (s_values d)). intros b.
  induction (s_values d) as [| v l IH]; [reflexivity |].
  cbn [map filter]. destruct v; cbn [is_date notna isna negb];
    try exact IH.
  destruct b; cbn [notna isna negb List.length]; now rewrite IH.
Qed.

(** X21.  On a frame with a crash-date column, the counts by year that
    [filter_and_group] writes list every distinct year once, and they add
    up to the number of rows whose crash date is a date: a row without a
    date is in no group, every other row is in exactly one. *)
Theorem X21_counts_by_year
  (df df' : DataFrame) (arts : GroupArtifacts) (d : Series) :
  filter_and_group df = Ok (df', arts) ->
  get_col df CRASH_DATE = Some d ->
  exists yearly,
    collisions_by_year arts = Some yearly
    /\ NoDup (map fst yearly)
    /\ (forall k n, In (k, n) yearly -> k <> NA /\ 0 < n)
    /\ list_sum (map snd yearly)
       = List.length (filter is_date (s_values d)).
Proof.
  intros Hfg Hd.
  destruct (filter_and_group_artifacts _ _ _ Hfg) as (_ & Hy & _).
  pose proof (filter_and_group_is_ok df) as Hok. rewrite Hfg, Hd in Hok.
  cbn [is_ok] in Hok. symmetry in Hok. rewrite <- dt_year_is_ok in Hok.
  destruct (dt_year d) as [y |] eqn:Ey; [| discriminate].
  destruct (filter_and_group_frame _ _ _ Hfg) as (-> & _ & _).
  unfold with_year in Hy. rewrite Hd in Hy. unfold total in Hy.
  rewrite Ey in Hy.
  rewrite has_col_get, get_col_assign_same in Hy.
  unfold col_values in Hy. rewrite get_col_assign_same in Hy.
  eexists. split; [exact Hy |]. split; [| split].
  - rewrite groupby_size_keys. apply group_keys_NoDup.
  - intros k n Hin. apply groupby_size_In in Hin.
    destruct Hin as (Hk & Hin & ->). split; [exact Hk |].
    now apply count_pos.
  - rewrite groupby_size_total. now apply dt_year_values.
Qed.

Lemma X21_witness :
  exists yearly,
    collisions_by_year scenario_group_artifacts = Some yearly
    /\ NoDup (map fst yearly)
    /\ (forall k n, In (k, n) yearly -> k <> NA /\ 0 < n)
    /\ list_sum (map snd yearly)
       = List.length
           (filter is_date
              (s_values
                 (mkSeries DDatetime64
                    [VDate (mkTimestamp 2021 1 2 0 0);
                     VDate (mkTimestamp 2021 1 2 0 0)]))).
Proof.
  apply (X21_counts_by_year scenario_cleaned scenario_exported
           scenario_group_artifacts
           (mkSeries DDatetime64
              [VDate (mkTimestamp 2021 1 2 0 0);
               VDate (mkTimestamp 2021 1 2 0 0)])).
  - reflexivity.
  - reflexivity.
Defined.

Lemma agg_count_some g : g <> [] -> agg_count g <> None.
Proof. destruct g; [congruence | discriminate]. Qed.

(** X22.  The pivot that [filter_and_group] writes has no empty line: its
    row labels are distinct non-null years, its column labels distinct
    non-null boroughs, every row has a cell that is a count and so has
    every column. *)
Theorem X22_pivot_has_no_empty_line
  (df df' : DataFrame) (arts : GroupArtifacts) (p : Pivot) :
  filter_and_group df = Ok (df', arts) ->
  pivot_year_borough arts = Some p ->
  NoDup (p_index p) /\ NoDup (p_columns p)
  /\ (forall y, In y (p_index p) ->
        y <> NA /\ exists b, In b (p_columns p) /\ pivot_cell p y b <> None)
  /\ (forall b, In b (p_columns p) ->
        b <> NA /\ exists y, In y (p_index p) /\ pivot_cell p y b <> None).
Proof.
  intros Hfg Hp.
  destruct (filter_and_group_frame _ _ _ Hfg) as (_ & _ & Hp').
  rewrite Hp in Hp'.
  destruct (has_col df' YEAR && has_col df' BOROUGH
            && has_col df' UNIQUE_KEY_COL); [| discriminate].
  injection Hp' as ->.
  set (Y := col_values df' YEAR). set (B := col_values df' BOROUGH).
  set (K := col_values df' UNIQUE_KEY_COL).
  set (rows := combine Y (combine B K)).
  set (labelled :=
         filter (fun r : row3 => notna (fst r) && notna (fst (snd r))) rows).
  assert (Hlab : forall r, In r labelled ->
            In r rows /\ fst r <> NA /\ fst (snd r) <> NA
            /\ In (fst r) (group_keys (map fst labelled))
            /\ In (fst (snd r))
                 (group_keys (map (fun r => fst (snd r)) labelled))).
  { intros r Hr. pose proof Hr as Hr'. unfold labelled in Hr'.
    apply filter_In in Hr'. destruct Hr' as [Hin Hn].
    apply andb_true_iff in Hn. destruct Hn as [H1 H2].
    apply notna_iff in H1. apply notna_iff in H2.
    repeat split; try assumption.
    - apply group_keys_In. split; [now apply in_map | exact H1].
    - apply group_keys_In.
      split; [now apply (in_map (fun r => fst (snd r))) | exact H2]. }
  assert (Hcell : forall r, In r labelled ->
            pivot_cell (pivot_table Y B K) (fst r) (fst (snd r)) <> None).
  { intros r Hr. destruct (Hlab r Hr) as (Hin & H1 & H2 & _).
    rewrite (pivot_cell_spec Y B K _ _ H1 H2). apply agg_count_some.
    intros E. fold rows in E.
    assert (Hg : In r (group_rows rows (fst r) (fst (snd r))))
      by (apply group_rows_In; auto).
    rewrite E in Hg. destruct Hg. }
  unfold pivot_table. cbn [p_index p_columns]. fold rows. fold labelled.
  split; [apply group_keys_NoDup |]. split; [apply group_keys_NoDup |].
  split.
  - intros y Hy. apply group_keys_In in Hy. destruct Hy as [Hin Hn].
    split; [exact Hn |]. apply in_map_iff in Hin.
    destruct Hin as (r & <- & Hr). exists (fst (snd r)).
    split; [apply (Hlab r Hr) | apply (Hcell r Hr)].
  - intros b Hb. apply group_keys_In in Hb. destruct Hb as [Hin Hn].
    split; [exact Hn |]. apply in_map_iff in Hin.
    destruct Hin as (r & <- & Hr). exists (fst r).
    split; [apply (Hlab r Hr) | apply (Hcell r Hr)].
Qed.

Lemma X22_witness :
  NoDup (p_index (mkPivot [VInt 2021] [VStr "Brooklyn"; VStr "Queens"]
                    [[Some 1; Some 1]]))
  /\ NoDup (p_columns (mkPivot [VInt 2021] [VStr "Brooklyn"; VStr "Queens"]
                         [[Some 1; Some 1]]))
  /\ (forall y,
        In y (p_index (mkPivot [VInt 2021] [VStr "Brooklyn"; VStr "Queens"]
                         [[Some 1; Some 1]])) ->
        y <> NA
        /\ exists b,
             In b (p_columns
                     (mkPivot [VInt 2021] [VStr "Brooklyn"; VStr "Queens"]
                        [[Some 1; Some 1]]))
             /\ pivot_cell
                  (mkPivot [VInt 2021] [VStr "Brooklyn"; VStr "Queens"]
                     [[Some 1; Some 1]]) y b <> None)
  /\ (forall b,
        In b (p_columns
                (mkPivot [VInt 2021] [VStr "Brooklyn"; VStr "Queens"]
                   [[Some 1; Some 1]])) ->
        b <> NA
        /\ exists y,
             In y (p_index
                     (mkPivot [VInt 2021] [VStr "Brooklyn"; VStr "Queens"]
                        [[Some 1; Some 1]]))
             /\ pivot_cell
                  (mkPivot [VInt 2021] [VStr "Brooklyn"; VStr "Queens"]
                     [[Some 1; Some 1]]) y b <> None).
Proof.
  apply (X22_pivot_has_no_empty_line scenario_cleaned scenario_exported
           scenario_group_artifacts).
  - reflexivity.
  - reflexivity.
Defined.
